(** * violet: host/path dispatch, domain-name utilities and favicon rebuild

    A shallow embedding of

    - [utils/domain-utils.go]  (SplitDomainPort, GetDomainWithoutPort,
      ReplaceSubdomainWithWildcard, GetBaseDomain, GetTopFqdn),
    - [router/router.go]       (Router, AddRoute, AddRedirect, ServeHTTP),
    - [favicons/favicons.go]   (GetIcons, threadCompile, internalCompile),

    together with the small parts of Go's [strings], [strconv] and [net/http]
    packages and of [julienschmidt/httprouter] that this code calls. *)

From Stdlib Require Import ZArith Ascii String List Lia Bool DecimalString.
From stdpp Require Import base option strings gmap.

Local Open Scope Z_scope.

(* ===================================================================== *)
(** * Go strings: byte sequences                                          *)
(* ===================================================================== *)

(** A Go [string] is an immutable sequence of bytes; [string] over [ascii]
    is the same thing.  Indices and lengths are Go [int]s, kept in [Z]. *)
Module GoStrings.

Definition len (s : string) : Z := Z.of_nat (String.length s).

(** [s[i:]].  Go panics unless [0 <= i <= len(s)]; every call below is
    guarded by an index that [IndexByte] returned. *)
Fixpoint drop (n : nat) (s : string) : string :=
  match n, s with
  | O, _ => s
  | S _, EmptyString => EmptyString
  | S n', String _ s' => drop n' s'
  end.

(** [s[:i]], same side condition. *)
Fixpoint take (n : nat) (s : string) : string :=
  match n, s with
  | O, _ => EmptyString
  | S _, EmptyString => EmptyString
  | S n', String a s' => String a (take n' s')
  end.

Definition sliceFrom (s : string) (i : Z) : string := drop (Z.to_nat i) s.
Definition sliceTo (s : string) (i : Z) : string := take (Z.to_nat i) s.

(** [strings.IndexByte(s, c)]: index of the first [c] in [s], or [-1]. *)
Fixpoint IndexByte (s : string) (c : ascii) : Z :=
  match s with
  | EmptyString => -1
  | String a s' =>
      if Ascii.eqb a c then 0
      else let i := IndexByte s' c in
           if i <? 0 then -1 else i + 1
  end.

(** [strings.Count(s, sep)] for a one-byte separator. *)
Fixpoint Count (s : string) (c : ascii) : Z :=
  match s with
  | EmptyString => 0
  | String a s' => (if Ascii.eqb a c then 1 else 0) + Count s' c
  end.

(** [strings.HasPrefix(s, "/")]-style test on the first byte. *)
Definition HasPrefixByte (s : string) (c : ascii) : bool :=
  match s with
  | String a _ => Ascii.eqb a c
  | EmptyString => false
  end.

(** The loop of [genSplit]: at most [k] cuts, the rest of the string is the
    last element.
<<
    for i < n { m := Index(s, sep); if m < 0 { break }
                a[i] = s[:m]; s = s[m+len(sep):]; i++ }
    a[i] = s
>> *)
Fixpoint splitLoop (k : nat) (s : string) (sep : ascii) : list string :=
  match k with
  | O => s :: nil
  | S k' =>
      let m := IndexByte s sep in
      if m <? 0 then s :: nil
      else sliceTo s m :: splitLoop k' (sliceFrom s (m + 1)) sep
  end.

(** [genSplit(s, sep, 0, n)] for a separator of exactly one byte, which is
    what every caller in this repository passes (["."] and [":"]); for such
    a separator Go's [Index] is [IndexByte].
<<
    if n == 0 { return nil }
    if n < 0 { n = Count(s, sep) + 1 }
    if n > len(s)+1 { n = len(s) + 1 }
>> *)
Definition genSplit (s : string) (sep : ascii) (n : Z) : list string :=
  if n =? 0 then nil
  else
    let n1 := if n <? 0 then Count s sep + 1 else n in
    let n2 := if n1 >? len s + 1 then len s + 1 else n1 in
    splitLoop (Z.to_nat (n2 - 1)) s sep.

Definition SplitN (s : string) (sep : ascii) (n : Z) : list string :=
  genSplit s sep n.
Definition Split (s : string) (sep : ascii) : list string :=
  genSplit s sep (-1).

(** [strings.Join(elems, sep)]. *)
Fixpoint Join (elems : list string) (sep : string) : string :=
  match elems with
  | nil => EmptyString
  | e :: nil => e
  | e :: rest => e +:+ sep +:+ Join rest sep
  end.

End GoStrings.

(* ===================================================================== *)
(** * Go strconv.Atoi (64-bit int)                                        *)
(* ===================================================================== *)

Module GoStrconv.
Import GoStrings.

Inductive NumError := ErrSyntax | ErrRange.

Definition is_digit (c : ascii) : bool :=
  (48 <=? Z.of_nat (nat_of_ascii c)) && (Z.of_nat (nat_of_ascii c) <=? 57).

Definition digit_val (c : ascii) : Z := Z.of_nat (nat_of_ascii c) - 48.

Definition is_sign (c : ascii) : bool :=
  Ascii.eqb c "-"%char || Ascii.eqb c "+"%char.

Definition maxUint64 : Z := 2 ^ 64 - 1.

(** The digit loop of [ParseUint(s, 10, 64)]: a byte that is no decimal
    digit is a syntax error; an overflow stops the loop at once with the
    largest value and a range error, whatever follows. *)
Fixpoint parseUintLoop (s : string) (n : Z) : Z * option NumError :=
  match s with
  | EmptyString => (n, None)
  | String c s' =>
      if is_digit c then
        if n >=? maxUint64 / 10 + 1 then (maxUint64, Some ErrRange)
        else
          let n10 := n * 10 in
          let n1 := (n10 + digit_val c) mod 2 ^ 64 in
          if (n1 <? n10) || (n1 >? maxUint64) then (maxUint64, Some ErrRange)
          else parseUintLoop s' n1
      else (0, Some ErrSyntax)
  end.

Definition ParseUint (s : string) : Z * option NumError :=
  match s with
  | EmptyString => (0, Some ErrSyntax)
  | _ => parseUintLoop s 0
  end.

(** [ParseInt(s, 10, 0)] with [IntSize = 64]. *)
Definition ParseInt (s : string) : Z * option NumError :=
  match s with
  | EmptyString => (0, Some ErrSyntax)
  | String c s' =>
      let neg := Ascii.eqb c "-"%char in
      let body := if is_sign c then s' else s in
      match ParseUint body with
      | (_, Some ErrSyntax) => (0, Some ErrSyntax)
      | (un, _) =>
          let cutoff := 2 ^ 63 in
          if negb neg && (un >=? cutoff) then (cutoff - 1, Some ErrRange)
          else if neg && (un >? cutoff) then (- cutoff, Some ErrRange)
          else (if neg then - un else un, None)
      end
  end.

(** The fast path of [Atoi]: no overflow is possible below 19 bytes. *)
Fixpoint atoiFast (s : string) (n : Z) : option Z :=
  match s with
  | EmptyString => Some n
  | String c s' =>
      if is_digit c then atoiFast s' (n * 10 + digit_val c) else None
  end.

(** [strconv.Atoi]:
<<
    if 0 < sLen && sLen < 19 { fast path } else { ParseInt(s, 10, 0) }
>> *)
Definition Atoi (s : string) : Z * option NumError :=
  let sLen := len s in
  if (0 <? sLen) && (sLen <? 19) then
    match s with
    | EmptyString => (0, Some ErrSyntax)
    | String c s' =>
        let body := if is_sign c then s' else s in
        match body with
        | EmptyString => (0, Some ErrSyntax)
        | _ =>
            match atoiFast body 0 with
            | None => (0, Some ErrSyntax)
            | Some n => (if Ascii.eqb c "-"%char then - n else n, None)
            end
        end
    end
  else ParseInt s.

End GoStrconv.

(* ===================================================================== *)
(** * utils/domain-utils.go                                               *)
(* ===================================================================== *)

Module Utils.
Import GoStrings GoStrconv.

(** [ok = err == nil]. *)
Definition errOk (e : option NumError) : bool :=
  match e with None => true | Some _ => false end.

(** [SplitDomainPort(host, defaultPort) (domain, port, ok)].  The named
    results start at their zero values, which is what a slice of any other
    length would return. *)
Definition SplitDomainPort (host : string) (defaultPort : Z)
  : string * Z * bool :=
  match SplitN host ":"%char 2 with
  | a0 :: a1 :: nil =>
      let '(p, err) := Atoi a1 in
      (a0, p, errOk err)
  | a0 :: nil => (a0, defaultPort, true)
  | _ => (EmptyString, 0, false)
  end.

Definition GetDomainWithoutPort (domain : string) : string * bool :=
  match SplitN domain ":"%char 2 with
  | a0 :: _ :: nil => (a0, true)
  | nil => (EmptyString, false)
  | a0 :: _ => (a0, true)
  end.

Definition GetBaseDomain (domain : string) : string * bool :=
  match SplitN domain "."%char 2 with
  | _ :: a1 :: nil => (a1, true)
  | a0 :: nil => (a0, true)
  | _ => (EmptyString, false)
  end.

Definition ReplaceSubdomainWithWildcard (domain : string) : string * bool :=
  let '(a, b) := GetBaseDomain domain in
  ("*." +:+ a, b).

(** [a[l-2:]] for [l >= 2]. *)
Definition lastTwo (a : list string) : list string :=
  skipn (List.length a - 2)%nat a.

Definition GetTopFqdn (domain : string) : string * bool :=
  let a := Split domain "."%char in
  let l := Z.of_nat (List.length a) in
  if l >=? 2 then (Join (lastTwo a) ".", true)
  else if l =? 1 then (domain, true)
  else (EmptyString, false).

End Utils.

Import GoStrings GoStrconv Utils.

(* ===================================================================== *)
(** * net/http: requests, the response writer, status texts               *)
(* ===================================================================== *)

Module Http.

Definition MethodGet : string := "GET".
Definition MethodPost : string := "POST".
Definition StatusOK : Z := 200.
Definition StatusNotFound : Z := 404.

(** [http.StatusText], restricted to the two codes named in this file; Go
    answers the empty string for a code it does not know. *)
Definition StatusText (code : Z) : string :=
  if code =? 200 then "OK"
  else if code =? 404 then "Not Found"
  else "".

(** The fields of [*http.Request] that the router reads:
    [req.Host], [req.Method] and [req.URL.Path]. *)
Record Request := mkRequest {
  Host : string;
  Method : string;
  Path : string;
}.

(** Path parameters returned by a lookup ([httprouter.Params]). *)
Definition Params := list (string * string).

(** What is done to an [http.ResponseWriter], in order.  A matched target
    is handed the writer; what the target then writes belongs to the target
    package and is kept as one opaque event naming the target and the
    parameters it was called with. *)
Inductive Event (Route Redirect : Type) :=
| EvWriteHeader (code : Z)
| EvWrite (data : string)
| EvRoute (t : Route) (ps : Params)
| EvRedirect (t : Redirect) (ps : Params).
Global Arguments EvWriteHeader {_ _} _.
Global Arguments EvWrite {_ _} _.
Global Arguments EvRoute {_ _} _ _.
Global Arguments EvRedirect {_ _} _ _.

(** The writer is the history of calls made on it. *)
Definition ResponseWriter (Route Redirect : Type) := list (Event Route Redirect).

Section Observe.
Context {Route Redirect : Type}.

(** Bytes written to the body by [Write] calls. *)
Fixpoint Body (rw : ResponseWriter Route Redirect) : string :=
  match rw with
  | nil => EmptyString
  | EvWrite d :: rw' => d +:+ Body rw'
  | _ :: rw' => Body rw'
  end.

(** Status line sent: the first explicit [WriteHeader], or the implicit
    [WriteHeader(http.StatusOK)] that the first [Write] performs when no
    header was written before it.  [None]: nothing was sent by the calls
    recorded here.  What a target writes is not recorded, so target events
    are passed over. *)
Fixpoint StatusCode (rw : ResponseWriter Route Redirect) : option Z :=
  match rw with
  | nil => None
  | EvWriteHeader c :: _ => Some c
  | EvWrite _ :: _ => Some StatusOK
  | _ :: rw' => StatusCode rw'
  end.
End Observe.

End Http.

(** [fmt.Fprintf(w, "%d %s\n", d, s)]: one [Write] of the formatted text. *)
Module Fmt.
Definition LF : string := String (ascii_of_nat 10) EmptyString.
Definition verb_d (d : Z) : string := NilZero.string_of_int (Z.to_int d).
Definition Sprintf_d_s_LF (d : Z) (s : string) : string :=
  verb_d d +:+ " " +:+ s +:+ LF.
End Fmt.

(* ===================================================================== *)
(** * julienschmidt/httprouter: the per-host path router                  *)
(* ===================================================================== *)

(** The router package stores its targets in [*httprouter.Router] values and
    uses three operations of that library: [New], [Handler] and [Lookup].
    The library is not part of this repository; the interface below is what
    [router.go] relies on.  [Handler] panics on a malformed or conflicting
    registration, which is [None] here.  The three laws are the behaviour
    of the library that the results on registration rest on: a new router
    matches nothing, a registered pattern is found under its own method and
    path, and each method has a tree of its own. *)
Module Httprouter.
Import Http.

Class PathRouter (PR : Type -> Type) := {
  New : forall {T}, PR T;
  Handler : forall {T}, PR T -> string -> string -> T -> option (PR T);
  Lookup : forall {T}, PR T -> string -> string -> option (T * Params);
  Lookup_New : forall T (m p : string), Lookup (@New T) m p = None;
  Lookup_Handler : forall T (r r' : PR T) (m p : string) (t : T),
    Handler r m p t = Some r' -> exists ps, Lookup r' m p = Some (t, ps);
  Lookup_other_method : forall T (r r' : PR T) (m p m' p' : string) (t : T),
    Handler r m p t = Some r' -> m' <> m -> Lookup r' m' p' = Lookup r m' p';
}.

(** The literal-path fragment of the library: registrations in order, a
    request path matches the pattern equal to it and binds no parameter. *)
Definition Exact (T : Type) := list (string * string * T).

Fixpoint exactLookup {T} (r : Exact T) (m p : string) : option (T * Params) :=
  match r with
  | nil => None
  | (m', p', t) :: r' =>
      if String.eqb m' m && String.eqb p' p then Some (t, nil)
      else exactLookup r' m p
  end.

Definition exactHandler {T} (r : Exact T) (m p : string) (t : T)
  : option (Exact T) :=
  if String.eqb m "" then None              (* method must not be empty *)
  else if negb (GoStrings.HasPrefixByte p "/")
  then None                                 (* path must begin with a slash *)
  else match exactLookup r m p with
       | Some _ => None                     (* already registered *)
       | None => Some (r ++ (m, p, t) :: nil)
       end.

End Httprouter.

(* ===================================================================== *)
(** * router/router.go                                                    *)
(* ===================================================================== *)

Module Router.
Import Http Httprouter.

Section WithTargets.
(** [target.Route] and [target.Redirect] are declared in the target
    package; the router only stores them and hands them the request. *)
Context {PR : Type -> Type} `{!PathRouter PR}.
Context {Route Redirect : Type}.

Local Abbreviation RW := (ResponseWriter Route Redirect).

(** [type Router struct].  The [proxy] field is never assigned nor read
    in this file and is left out. *)
Record Router := mkRouter {
  route : gmap string (PR Route);
  redirect : gmap string (PR Redirect);
  notFound : RW -> Request -> RW;
}.

(** The handler that [New] installs:
    [fmt.Fprintf(rw, "%d %s\n", http.StatusNotFound, http.StatusText(http.StatusNotFound))]. *)
Definition notFoundHandler (rw : RW) (req : Request) : RW :=
  rw ++ EvWrite (Fmt.Sprintf_d_s_LF StatusNotFound (StatusText StatusNotFound)) :: nil.

Definition New : Router :=
  {| route := ∅; redirect := ∅; notFound := notFoundHandler |}.

(** [hostRoute]: the host's path router, created on first use.  The
    returned router is the one stored under [host]. *)
Definition hostRoute (r : Router) (host : string) : Router * PR Route :=
  match route r !! host with
  | Some h => (r, h)
  | None =>
      let h := Httprouter.New in
      ({| route := <[host := h]> (route r);
          redirect := redirect r; notFound := notFound r |}, h)
  end.

Definition hostRedirect (r : Router) (host : string) : Router * PR Redirect :=
  match redirect r !! host with
  | Some h => (r, h)
  | None =>
      let h := Httprouter.New in
      ({| route := route r;
          redirect := <[host := h]> (redirect r); notFound := notFound r |}, h)
  end.

Definition normPath (path : string) : string :=
  if negb (GoStrings.HasPrefixByte path "/") then "/" +:+ path else path.

(** [AddRoute].  [Handler] updates the path router that the map points
    to; [None] is the library's panic. *)
Definition AddRoute (r : Router) (host path : string) (t : Route)
  : option Router :=
  let path := normPath path in
  let '(r1, h) := hostRoute r host in
  match Handler h MethodGet path t with
  | Some h' =>
      Some {| route := <[host := h']> (route r1);
              redirect := redirect r1; notFound := notFound r1 |}
  | None => None
  end.

Definition AddService (r : Router) (host : string) (t : Route)
  : option Router :=
  AddRoute r host "/" t.

Definition AddRedirect (r : Router) (host path : string) (t : Redirect)
  : option Router :=
  let path := normPath path in
  let '(r1, h) := hostRedirect r host in
  match Handler h MethodGet path t with
  | Some h' =>
      Some {| route := route r1;
              redirect := <[host := h']> (redirect r1); notFound := notFound r1 |}
  | None => None
  end.

Definition serveRouteHTTP (r : Router) (rw : RW) (req : Request)
    (host : string) : bool * RW :=
  match route r !! host with
  | Some h =>
      match Lookup h (Method req) (Path req) with
      | Some (lookup, params) => (true, rw ++ EvRoute lookup params :: nil)
      | None => (false, rw)
      end
  | None => (false, rw)
  end.

Definition serveRedirectHTTP (r : Router) (rw : RW) (req : Request)
    (host : string) : bool * RW :=
  match redirect r !! host with
  | Some h =>
      match Lookup h (Method req) (Path req) with
      | Some (lookup, params) => (true, rw ++ EvRedirect lookup params :: nil)
      | None => (false, rw)
      end
  | None => (false, rw)
  end.

(** [wildcardHost := "*" + host[parentHostDot:]]. *)
Definition wildcardHost (host : string) (parentHostDot : Z) : string :=
  "*" +:+ GoStrings.sliceFrom host parentHostDot.

Definition ServeHTTP (r : Router) (rw : RW) (req : Request) : RW :=
  let host := Host req in
  let '(served, rw) := serveRedirectHTTP r rw req host in
  if served then rw else
  let '(served, rw) := serveRouteHTTP r rw req host in
  if served then rw else
  let parentHostDot := GoStrings.IndexByte host "." in
  if parentHostDot =? -1 then notFound r rw req else
  let wildcardHost := wildcardHost host parentHostDot in
  let '(served, rw) := serveRedirectHTTP r rw req wildcardHost in
  if served then rw else
  let '(served, rw) := serveRouteHTTP r rw req wildcardHost in
  if served then rw else
  rw.

(** Routers that the exported API can produce. *)
Inductive Built : Router -> Prop :=
| Built_New : Built New
| Built_AddRoute r host path t r' :
    Built r -> AddRoute r host path t = Some r' -> Built r'
| Built_AddRedirect r host path t r' :
    Built r -> AddRedirect r host path t = Some r' -> Built r'.

(** A start-up sequence of registrations, applied in order; a panic stops
    it. *)
Inductive Reg :=
| RegRoute (host path : string) (t : Route)
| RegRedirect (host path : string) (t : Redirect).

Definition register (r : Router) (reg : Reg) : option Router :=
  match reg with
  | RegRoute host path t => AddRoute r host path t
  | RegRedirect host path t => AddRedirect r host path t
  end.

Fixpoint registerAll (r : Router) (regs : list Reg) : option Router :=
  match regs with
  | nil => Some r
  | reg :: regs' =>
      match register r reg with
      | Some r' => registerAll r' regs'
      | None => None
      end
  end.

(** The host key that a registration goes under. *)
Definition regHost (reg : Reg) : string :=
  match reg with
  | RegRoute host _ _ => host
  | RegRedirect host _ _ => host
  end.

(** The router after [New] and the registrations that went through. *)
Definition built (regs : list Reg) : Router :=
  match registerAll New regs with
  | Some r => r
  | None => New
  end.

(** Every path router of a table answers only under GET. *)
Definition getOnly {T} (tbl : gmap string (PR T)) : Prop :=
  forall host h m p,
    tbl !! host = Some h -> m <> MethodGet -> Lookup h m p = None.

(** What a sub-table answers for a request under a host key. *)
Definition matchRoute (r : Router) (req : Request) (host : string)
  : option (Route * Params) :=
  h ← route r !! host; Lookup h (Method req) (Path req).

Definition matchRedirect (r : Router) (req : Request) (host : string)
  : option (Redirect * Params) :=
  h ← redirect r !! host; Lookup h (Method req) (Path req).

(** The wildcard tier of [ServeHTTP], reached after both exact lookups
    missed on a host with a dot. *)
Definition wildcardTier (r : Router) (rw : RW) (req : Request) (w : string)
  : RW :=
  match matchRedirect r req w with
  | Some (t, ps) => rw ++ EvRedirect t ps :: nil
  | None =>
      match matchRoute r req w with
      | Some (t, ps) => rw ++ EvRoute t ps :: nil
      | None => rw
      end
  end.

End WithTargets.
Global Arguments Router PR Route Redirect : clear implicits.

(** The line that the not-found handler writes, spelled out. *)
Definition notFoundLine : string := "404 Not Found" +:+ Fmt.LF.

End Router.

(* ===================================================================== *)
(** * favicons/favicons.go                                                *)
(* ===================================================================== *)

Module Favicons.

(** A Go [error], by its message. *)
Definition error := string.

(** [fmt.Errorf(prefix + ": %w", err)]. *)
Definition Errorf (prefix : string) (err : error) : error :=
  prefix +:+ ": " +:+ err.

(** One step of [query.Next(); query.Scan(&host, &rawSvg, &rawPng, &rawIco)]. *)
Inductive ScanResult :=
| ScanOk (host rawSvg rawPng rawIco : string)
| ScanErr (err : error).

(** What [db.Query(`select host, svg, png, ico from favicons`)] answers:
    an error, or the rows to iterate. *)
Definition DB := (error + list ScanResult)%type.

Section WithImages.
(** [FaviconImage], [CreateFaviconImage] and [FaviconList.PreProcess] live in
    other files of the package.  [CreateFaviconImage] returns a pointer that
    may be nil; [PreProcess] fills the list it is called on and may fail. *)
Context {FaviconImage : Type}.
Variable CreateFaviconImage : string -> option FaviconImage.

Record FaviconList := mkFaviconList {
  Ico : option FaviconImage;
  Png : option FaviconImage;
  Svg : option FaviconImage;
}.

Variable PreProcess : FaviconList -> FaviconList * option error.

(** [type Favicons struct]: the storage handle and the published map.  The
    lock and the rescheduler order the calls and carry no data. *)
Record Favicons := mkFavicons {
  db : DB;
  faviconMap : gmap string FaviconList;
}.

(** [GetIcons]: [f.faviconMap[host]], nil when absent. *)
Definition GetIcons (f : Favicons) (host : string) : option FaviconList :=
  faviconMap f !! host.

(** [g.Wait()] after every [g.Go]: each spawned [PreProcess] has run on the
    list stored for its row, and the first failure (here: in spawn order) is
    the result. *)
Fixpoint waitGroup (spawned : list (string * FaviconList))
    (m : gmap string FaviconList) : gmap string FaviconList * option error :=
  match spawned with
  | nil => (m, None)
  | (host, l) :: rest =>
      let '(l', e) := PreProcess l in
      let '(m', e') := waitGroup rest (<[host := l']> m) in
      (m', match e with Some _ => e | None => e' end)
  end.

(** The row loop of [internalCompile]; [spawned] are the goroutines started
    so far, oldest first.  A scan error returns at once. *)
Fixpoint scanRows (rows : list ScanResult) (m : gmap string FaviconList)
    (spawned : list (string * FaviconList))
    : gmap string FaviconList * option error :=
  match rows with
  | nil => waitGroup spawned m
  | ScanErr err :: _ => (m, Some (Errorf "failed to scan row" err))
  | ScanOk host rawSvg rawPng rawIco :: rest =>
      let l := {| Ico := CreateFaviconImage rawIco;
                  Png := CreateFaviconImage rawPng;
                  Svg := CreateFaviconImage rawSvg |} in
      scanRows rest (<[host := l]> m) (spawned ++ (host, l) :: nil)
  end.

(** [internalCompile(m)]: fills the map passed in and reports an error. *)
Definition internalCompile (f : Favicons) (m : gmap string FaviconList)
    : gmap string FaviconList * option error :=
  match db f with
  | inl err => (m, Some (Errorf "failed to prepare query" err))
  | inr rows => scanRows rows m nil
  end.

(** [threadCompile]: build into a new map, publish it only when the build
    succeeded.  The second component is what was logged. *)
Definition threadCompile (f : Favicons) : Favicons * list string :=
  let favicons : gmap string FaviconList := ∅ in
  let '(favicons, err) := internalCompile f favicons in
  match err with
  | Some e => (f, ("[Favicons] Compile failed: " +:+ e +:+ Fmt.LF) :: nil)
  | None => ({| db := db f; faviconMap := favicons |}, nil)
  end.

(** No row of the list is for the host; no goroutine was started for it. *)
Definition noRowFor (host : string) (rows : list ScanResult) : Prop :=
  forall svg png ico, ~ In (ScanOk host svg png ico) rows.

Definition noneSpawnedFor (host : string)
    (spawned : list (string * FaviconList)) : Prop :=
  forall l, ~ In (host, l) spawned.

(** A build that reported an error. *)
Definition failed (res : gmap string FaviconList * option error) : Prop :=
  exists e, snd res = Some e.

End WithImages.
Global Arguments FaviconList FaviconImage : clear implicits.
Global Arguments Favicons FaviconImage : clear implicits.

End Favicons.

(* ===================================================================== *)
(** * servers/api: the domain-ownership check                             *)
(* ===================================================================== *)

Module Api.
Import GoStrings Utils.

(** [claims.PermStorage] comes from the mjwt library: a set of permission
    strings, filled with [Set] and asked with [Has]. *)
Definition PermStorage := gset string.

Definition Set_ (perms : PermStorage) (perm : string) : PermStorage :=
  {[ perm ]} ∪ perms.

Definition Has (perms : PermStorage) (perm : string) : bool :=
  bool_decide (perm ∈ perms).

(** [validateDomainOwnershipClaims]: the claims must hold [owns=<fqdn>] for
    the top domain of [a]. *)
Definition validateDomainOwnershipClaims (a : string) (perms : PermStorage)
  : bool :=
  let '(fqdn, ok) := GetTopFqdn a in
  if ok then
    if Has perms ("owns=" +:+ fqdn) then true else false
  else false.

End Api.

(* ===================================================================== *)
(** * The wording of the specification, for comparison                    *)
(* ===================================================================== *)

Module SpecWords.
Import GoStrings GoStrconv.

(** Index of the last [c] in [s], or [-1]. *)
Fixpoint LastIndexByte (s : string) (c : ascii) : Z :=
  match s with
  | EmptyString => -1
  | String a s' =>
      let i := LastIndexByte s' c in
      if i <? 0 then (if Ascii.eqb a c then 0 else -1) else i + 1
  end.

Fixpoint all_digits (s : string) : bool :=
  match s with
  | EmptyString => true
  | String c s' => is_digit c && all_digits s'
  end.

(** "a valid non-negative integer": one or more decimal digits. *)
Definition nonNegativeInteger (s : string) : bool :=
  match s with
  | EmptyString => false
  | _ => all_digits s
  end.

Fixpoint decimalValue (s : string) (acc : Z) : Z :=
  match s with
  | EmptyString => acc
  | String c s' => decimalValue s' (acc * 10 + digit_val c)
  end.

(** "splits on the last colon; if absent, returns the full string as domain
    with the given default port and success; if the port segment is not a
    valid non-negative integer, returns failure while still returning the
    parsed domain and port=0". *)
Definition SplitHostPort_spec (host : string) (defaultPort : Z)
  : string * Z * bool :=
  let i := LastIndexByte host ":" in
  if i <? 0 then (host, defaultPort, true)
  else
    let domain := sliceTo host i in
    let seg := sliceFrom host (i + 1) in
    if nonNegativeInteger seg then (domain, decimalValue seg 0, true)
    else (domain, 0, false).

(** "returns the portion before the first colon; returns failure only on an
    empty host". *)
Definition DropPort_spec (host : string) : string * bool :=
  let i := IndexByte host ":" in
  let domain := if i <? 0 then host else sliceTo host i in
  (domain, negb (String.eqb host "")).

(** An optionally signed run of decimal digits: what [strconv.Atoi] takes
    for a decimal integer. *)
Definition signedDecimal (s : string) : bool :=
  match s with
  | EmptyString => false
  | String c s' => nonNegativeInteger (if is_sign c then s' else s)
  end.

End SpecWords.

(* ===================================================================== *)
(** * A path router to run the dispatcher on                              *)
(* ===================================================================== *)

Module ExactRouter.
Import Http Httprouter.

#[export] Instance Exact_PathRouter : PathRouter Exact.
Proof.
  assert (Happ : forall T (r1 r2 : Exact T) m p,
             exactLookup (r1 ++ r2) m p =
             match exactLookup r1 m p with
             | Some x => Some x
             | None => exactLookup r2 m p
             end).
  { intros T r1 r2 m p.
    induction r1 as [|[[m' p'] t] r1 IH]; simpl; [reflexivity|].
    destruct (String.eqb m' m && String.eqb p' p); [reflexivity|apply IH]. }
  assert (Hinv : forall T (r r' : Exact T) m p t,
             exactHandler r m p t = Some r' ->
             exactLookup r m p = None /\ r' = r ++ (m, p, t) :: nil).
  { intros T r r' m p t. unfold exactHandler.
    destruct (String.eqb m ""); [discriminate|].
    destruct (negb (GoStrings.HasPrefixByte p "/")); [discriminate|].
    destruct (exactLookup r m p); [discriminate|].
    intros [= <-]. split; reflexivity. }
  refine {| New := fun T => (nil : Exact T);
            Handler := fun T => @exactHandler T;
            Lookup := fun T => @exactLookup T |}.
  - reflexivity.
  - intros T r r' m p t [Hnone ->]%Hinv.
    exists nil. rewrite Happ, Hnone. simpl.
    rewrite !String.eqb_refl. reflexivity.
  - intros T r r' m p m' p' t [_ ->]%Hinv Hne.
    rewrite Happ. simpl.
    destruct (String.eqb_spec m m') as [->|_]; [congruence|]. simpl.
    destruct (exactLookup r m' p') as [[]|]; reflexivity.
Defined.

End ExactRouter.

(* ===================================================================== *)
(** * Sample tables and requests                                          *)
(* ===================================================================== *)

Module Samples.
Import Http Httprouter ExactRouter Router.

(** Targets are named by a string here. *)
Abbreviation SRouter := (Router.Router Exact string string).

(** Route [GET /] on [example.com] to A, redirect [GET /] on the same host
    to B. *)
Definition routerAB : SRouter :=
  built (RegRoute "example.com" "/" "A"
         :: RegRedirect "example.com" "/" "B" :: nil).

(** Route [GET /] on [*.example.com] to C. *)
Definition routerC : SRouter :=
  built (RegRoute "*.example.com" "/" "C" :: nil).

(** Exact and wildcard registrations side by side. *)
Definition routerMixed : SRouter :=
  built (RegRoute "shop.example.com" "/" "A"
         :: RegRedirect "*.example.com" "/" "B"
         :: RegRoute "*.example.com" "/" "C"
         :: RegRoute "localhost" "/" "L" :: nil).

Definition get (host path : string) : Request :=
  {| Host := host; Method := MethodGet; Path := path |}.
Definition post (host path : string) : Request :=
  {| Host := host; Method := MethodPost; Path := path |}.

(** Storage answers for the favicon provider. *)
Definition sampleCreate (url : string) : option string :=
  if String.eqb url "" then None else Some url.
Definition samplePreProcess (l : Favicons.FaviconList string)
  : Favicons.FaviconList string * option Favicons.error :=
  match Favicons.Svg l with
  | Some "bad" => (l, Some "favicon not found")
  | _ => (l, None)
  end.

Definition goodRows : list Favicons.ScanResult :=
  Favicons.ScanOk "example.com" "https://example.com/assets/logo.svg" "" "" :: nil.
Definition brokenRows : list Favicons.ScanResult :=
  Favicons.ScanOk "other.org" "https://other.org/logo.svg" "" ""
  :: Favicons.ScanErr "sql: Scan error" :: nil.

(** A provider whose last good build knows [example.com] and whose storage
    now returns a row that cannot be scanned. *)
Definition iconsBefore : Favicons.FaviconList string :=
  {| Favicons.Ico := None; Favicons.Png := None;
     Favicons.Svg := Some "https://example.com/assets/logo.svg" |}.
Definition providerBroken : Favicons.Favicons string :=
  {| Favicons.db := inr brokenRows;
     Favicons.faviconMap := {[ "example.com" := iconsBefore ]} |}.

End Samples.

(* ===================================================================== *)
(** * Facts about the string primitives                                   *)
(* ===================================================================== *)

Module GoStringsFacts.
Import GoStrings.

Lemma app_nil_l (t : string) : "" +:+ t = t.
Proof. reflexivity. Qed.

Lemma app_cons (a : ascii) (s t : string) :
  String a s +:+ t = String a (s +:+ t).
Proof. reflexivity. Qed.

Lemma len_nonneg (s : string) : 0 <= len s.
Proof. unfold len. lia. Qed.

Lemma len_cons (a : ascii) (s : string) : len (String a s) = len s + 1.
Proof. unfold len. simpl String.length. lia. Qed.

Lemma len_app (s t : string) : len (s +:+ t) = len s + len t.
Proof.
  induction s as [|a s IH].
  - rewrite app_nil_l. unfold len. simpl. lia.
  - rewrite app_cons, !len_cons, IH. lia.
Qed.

(** [IndexByte] answers [-1] or a position inside the string, so the slices
    taken at its result are in range. *)
Lemma IndexByte_range (s : string) (c : ascii) :
  IndexByte s c = -1 \/ (0 <= IndexByte s c < len s).
Proof.
  induction s as [|a s IH]; simpl IndexByte.
  - left. reflexivity.
  - rewrite len_cons. destruct (Ascii.eqb a c).
    + right. pose proof (len_nonneg s). lia.
    + destruct IH as [->|IH]; simpl.
      * left. reflexivity.
      * destruct (Z.ltb_spec (IndexByte s c) 0); [lia|]. right. lia.
Qed.

Lemma IndexByte_cons_ne (a c : ascii) (s : string) :
  Ascii.eqb a c = false ->
  IndexByte (String a s) c =
  if IndexByte s c <? 0 then -1 else IndexByte s c + 1.
Proof. intros H. simpl. rewrite H. reflexivity. Qed.

(** A string without [c] keeps the first [c] appended after it at its own
    length. *)
Lemma IndexByte_first (d rest : string) (c : ascii) :
  IndexByte d c = -1 -> IndexByte (d +:+ String c rest) c = len d.
Proof.
  induction d as [|a d IH]; intros Hd.
  - rewrite app_nil_l. simpl. rewrite Ascii.eqb_refl. reflexivity.
  - rewrite app_cons, len_cons. simpl in Hd |- *.
    destruct (Ascii.eqb a c); [discriminate|].
    destruct (IndexByte_range d c) as [Hn|Hr].
    + rewrite (IH Hn). pose proof (len_nonneg d).
      destruct (Z.ltb_spec (len d) 0); lia.
    + destruct (Z.ltb_spec (IndexByte d c) 0); lia.
Qed.

Lemma sliceTo_app (d t : string) : sliceTo (d +:+ t) (len d) = d.
Proof.
  unfold sliceTo, len. rewrite Nat2Z.id.
  induction d as [|a d IH].
  - reflexivity.
  - rewrite app_cons. simpl. rewrite IH. reflexivity.
Qed.

Lemma sliceFrom_app (d t : string) : sliceFrom (d +:+ t) (len d) = t.
Proof.
  unfold sliceFrom, len. rewrite Nat2Z.id.
  induction d as [|a d IH].
  - reflexivity.
  - rewrite app_cons. simpl. exact IH.
Qed.

Lemma sliceFrom_app_sep (d rest : string) (c : ascii) :
  sliceFrom (d +:+ String c rest) (len d + 1) = rest.
Proof.
  replace (d +:+ String c rest) with ((d +:+ String c "") +:+ rest).
  - replace (len d + 1) with (len (d +:+ String c "")).
    + apply sliceFrom_app.
    + rewrite len_app, len_cons. unfold len. simpl. lia.
  - induction d as [|a d IH]; [reflexivity|].
    rewrite !app_cons, IH. reflexivity.
Qed.

(** The split loop yields at least one and at most [k + 1] pieces. *)
Lemma splitLoop_length (k : nat) (s : string) (sep : ascii) :
  (1 <= List.length (splitLoop k s sep) <= k + 1)%nat.
Proof.
  revert s. induction k as [|k IH]; intros s; simpl.
  - lia.
  - destruct (IndexByte s sep <? 0); simpl.
    + lia.
    + specialize (IH (sliceFrom s (IndexByte s sep + 1))). lia.
Qed.

Lemma genSplit_length (s : string) (sep : ascii) (n : Z) :
  n <> 0 -> (1 <= List.length (genSplit s sep n))%nat.
Proof.
  intros Hn. unfold genSplit.
  destruct (Z.eqb_spec n 0); [contradiction|].
  apply splitLoop_length.
Qed.

Lemma SplitN_2_length (s : string) (sep : ascii) :
  (1 <= List.length (SplitN s sep 2) <= 2)%nat.
Proof.
  unfold SplitN, genSplit. change (2 =? 0) with false. change (2 <? 0) with false. cbv iota.
  match goal with |- context [splitLoop ?k s sep] =>
    pose proof (splitLoop_length k s sep) as H; assert (k <= 1)%nat end.
  { destruct (Z.gtb_spec 2 (len s + 1)); lia. }
  lia.
Qed.

(** No separator: one piece, the string itself. *)
Lemma splitLoop_none (k : nat) (s : string) (sep : ascii) :
  IndexByte s sep = -1 -> splitLoop k s sep = s :: nil.
Proof. intros H. destruct k; simpl; [reflexivity|]. rewrite H. reflexivity. Qed.

Lemma SplitN_2_none (s : string) (sep : ascii) :
  IndexByte s sep = -1 -> SplitN s sep 2 = s :: nil.
Proof. intros H. unfold SplitN, genSplit. simpl. apply splitLoop_none, H. Qed.

(** A separator: two pieces, cut at the first one. *)
Lemma SplitN_2_first (d rest : string) (sep : ascii) :
  IndexByte d sep = -1 ->
  SplitN (d +:+ String sep rest) sep 2 = d :: rest :: nil.
Proof.
  intros Hd. unfold SplitN, genSplit. change (2 =? 0) with false. change (2 <? 0) with false. cbv iota.
  rewrite len_app, len_cons.
  pose proof (len_nonneg d). pose proof (len_nonneg rest).
  destruct (Z.gtb_spec 2 (len d + (len rest + 1) + 1)); [lia|].
  change (Z.to_nat (2 - 1)) with 1%nat. simpl splitLoop.
  rewrite (IndexByte_first d rest sep Hd).
  destruct (Z.ltb_spec (len d) 0); [lia|].
  rewrite sliceTo_app, sliceFrom_app_sep. reflexivity.
Qed.

(** Every string either has no [c] or is cut by its first [c]. *)
Lemma first_cut (s : string) (c : ascii) :
  IndexByte s c = -1 \/
  exists d rest, s = d +:+ String c rest /\ IndexByte d c = -1.
Proof.
  induction s as [|a s IH]; [left; reflexivity|].
  destruct (Ascii.eqb a c) eqn:E.
  - right. exists "", s. apply Ascii.eqb_eq in E as ->. split; reflexivity.
  - destruct IH as [Hn|(d & rest & -> & Hd)].
    + left. simpl. rewrite E, Hn. reflexivity.
    + right. exists (String a d), rest. split; [reflexivity|].
      simpl. rewrite E, Hd. reflexivity.
Qed.

End GoStringsFacts.

(* ===================================================================== *)
(** * Facts about strconv.Atoi                                            *)
(* ===================================================================== *)

Module GoStrconvFacts.
Import GoStrings GoStrconv SpecWords GoStringsFacts.

Lemma atoiFast_not_digits (s : string) (n : Z) :
  all_digits s = false -> atoiFast s n = None.
Proof.
  revert n. induction s as [|c s IH]; intros n; simpl; [discriminate|].
  destruct (is_digit c); simpl; [apply IH|reflexivity].
Qed.

Lemma atoiFast_digits (s : string) (n : Z) :
  all_digits s = true -> atoiFast s n = Some (decimalValue s n).
Proof.
  revert n. induction s as [|c s IH]; intros n; simpl; [reflexivity|].
  destruct (is_digit c); simpl; [apply IH|discriminate].
Qed.

(** The digit loop of [ParseUint] reports an error on any string that is not
    made of digits only: a syntax error at the offending byte, or a range
    error when the digits before it already overflow. *)
Lemma parseUintLoop_not_digits (s : string) (n : Z) :
  all_digits s = false -> exists v e, parseUintLoop s n = (v, Some e).
Proof.
  revert n. induction s as [|c s IH]; intros n; simpl; [discriminate|].
  destruct (is_digit c); simpl; [|eauto].
  intros Hs. destruct (n >=? maxUint64 / 10 + 1); [eauto|].
  match goal with |- context [if ?b then _ else _] => destruct b end; eauto.
Qed.

Lemma parseUintLoop_range (s : string) (n v : Z) :
  parseUintLoop s n = (v, Some ErrRange) -> v = maxUint64.
Proof.
  revert n. induction s as [|c s IH]; intros n; simpl; [discriminate|].
  destruct (is_digit c); [|discriminate].
  destruct (n >=? maxUint64 / 10 + 1); [congruence|].
  match goal with |- context [if ?b then _ else _] => destruct b end;
    [congruence|apply IH].
Qed.

Lemma ParseInt_rejects (s : string) :
  signedDecimal s = false -> exists v e, ParseInt s = (v, Some e).
Proof.
  destruct s as [|c s']; [simpl; eauto|].
  unfold signedDecimal, ParseInt.
  set (body := if is_sign c then s' else String c s').
  intros Hbody. unfold ParseUint.
  destruct body as [|b body']; [eauto|].
  destruct (parseUintLoop (String b body') 0) as [v [e|]] eqn:E.
  - destruct e; [eauto|].
    apply parseUintLoop_range in E as ->.
    destruct (Ascii.eqb c "-"); vm_compute; eauto.
  - destruct (parseUintLoop_not_digits _ 0 Hbody) as (v' & e' & E').
    congruence.
Qed.

(** [Atoi] fails on every string that is not an optionally signed run of
    decimal digits. *)
Lemma Atoi_rejects (s : string) :
  signedDecimal s = false -> exists v e, Atoi s = (v, Some e).
Proof.
  intros Hs. unfold Atoi.
  destruct ((0 <? len s) && (len s <? 19)); [|apply ParseInt_rejects, Hs].
  destruct s as [|c s']; [eauto|].
  unfold signedDecimal in Hs.
  destruct (if is_sign c then s' else String c s') as [|b body']; [eauto|].
  unfold nonNegativeInteger in Hs. rewrite (atoiFast_not_digits _ 0 Hs). eauto.
Qed.

(** Below 19 bytes the failure is a syntax error and the value is 0. *)
Lemma Atoi_rejects_short (s : string) :
  signedDecimal s = false -> len s < 19 -> Atoi s = (0, Some ErrSyntax).
Proof.
  intros Hs Hlen. unfold Atoi.
  destruct s as [|c s']; [reflexivity|].
  rewrite len_cons in *. pose proof (len_nonneg s').
  destruct (Z.ltb_spec 0 (len s' + 1)); [|lia].
  destruct (Z.ltb_spec (len s' + 1) 19); [|lia]. simpl andb. cbv iota.
  unfold signedDecimal in Hs.
  destruct (if is_sign c then s' else String c s') as [|b body']; [reflexivity|].
  unfold nonNegativeInteger in Hs. rewrite (atoiFast_not_digits _ 0 Hs). reflexivity.
Qed.

(** Below 19 bytes an optionally signed run of digits is accepted, a
    leading [-] included. *)
Lemma Atoi_accepts_short (c : ascii) (s' : string) :
  signedDecimal (String c s') = true -> len (String c s') < 19 ->
  Atoi (String c s') =
  (let v := decimalValue (if is_sign c then s' else String c s') 0 in
   if Ascii.eqb c "-" then - v else v, None).
Proof.
  intros Hs Hlen. unfold Atoi.
  rewrite len_cons in *. pose proof (len_nonneg s').
  destruct (Z.ltb_spec 0 (len s' + 1)); [|lia].
  destruct (Z.ltb_spec (len s' + 1) 19); [|lia]. simpl andb. cbv iota.
  unfold signedDecimal in Hs.
  destruct (if is_sign c then s' else String c s') as [|b body']; [discriminate|].
  unfold nonNegativeInteger in Hs. rewrite (atoiFast_digits _ 0 Hs). reflexivity.
Qed.

End GoStrconvFacts.

(* ===================================================================== *)
(** * utils/domain-utils.go: results                                      *)
(* ===================================================================== *)

Module UtilsFacts.
Import GoStrings GoStrconv Utils SpecWords GoStringsFacts GoStrconvFacts.

Lemma SplitDomainPort_no_colon (host : string) (defaultPort : Z) :
  IndexByte host ":" = -1 ->
  SplitDomainPort host defaultPort = (host, defaultPort, true).
Proof.
  intros H. unfold SplitDomainPort. rewrite (SplitN_2_none _ _ H). reflexivity.
Qed.

Lemma SplitDomainPort_colon (d rest : string) (defaultPort : Z) :
  IndexByte d ":" = -1 ->
  SplitDomainPort (d +:+ String ":" rest) defaultPort =
  (d, fst (Atoi rest), errOk (snd (Atoi rest))).
Proof.
  intros H. unfold SplitDomainPort. rewrite (SplitN_2_first _ _ _ H).
  destruct (Atoi rest) as [p [e|]]; reflexivity.
Qed.

(** C8, against the wording: on a host with two colons the code cuts at the
    first one where the sentence cuts at the last; a negative port segment is
    accepted; and a segment that overflows before its first bad byte fails
    with a port that is not 0. *)
Lemma SplitDomainPort_not_last_colon :
  SplitDomainPort "a:b:80" 443 = ("a", 0, false)
  /\ SplitHostPort_spec "a:b:80" 443 = ("a:b", 80, true)
  /\ SplitDomainPort "a:b:80" 443 <> SplitHostPort_spec "a:b:80" 443
  /\ nonNegativeInteger "-1" = false
  /\ SplitDomainPort "a:-1" 443 = ("a", -1, true)
  /\ SplitDomainPort "a:-1" 443 <> SplitHostPort_spec "a:-1" 443
  /\ nonNegativeInteger "99999999999999999999x" = false
  /\ SplitDomainPort "a:99999999999999999999x" 443
     = ("a", 9223372036854775807, false).
Proof. vm_compute. repeat split; discriminate. Qed.

(** C8, as the code has it.  For a colon-free [d]: the host [d] alone comes
    back whole with the default port and success; the host [d:rest] is cut at
    that first colon, [d] is the domain whatever [rest] holds (further colons
    included), and port and success are [strconv.Atoi]'s answer on [rest];
    when [rest] is not an optionally signed run of decimal digits the call
    fails, still with domain [d], and with port 0 if [rest] is shorter than
    19 bytes; when it is one, shorter than 19 bytes, the call succeeds with
    its value, negative values included. *)
Theorem SplitDomainPort_first_colon
    (d rest : string) (defaultPort : Z) (Hd : IndexByte d ":" = -1) :
  SplitDomainPort d defaultPort = (d, defaultPort, true)
  /\ SplitDomainPort (d +:+ String ":" rest) defaultPort
     = (d, fst (Atoi rest), errOk (snd (Atoi rest)))
  /\ (signedDecimal rest = false ->
      exists port,
        SplitDomainPort (d +:+ String ":" rest) defaultPort = (d, port, false)
        /\ (len rest < 19 -> port = 0))
  /\ (signedDecimal rest = true -> len rest < 19 ->
      exists port,
        SplitDomainPort (d +:+ String ":" rest) defaultPort = (d, port, true)).
Proof.
  split; [apply SplitDomainPort_no_colon, Hd|].
  split; [apply SplitDomainPort_colon, Hd|].
  rewrite (SplitDomainPort_colon _ _ _ Hd). split.
  - intros Hbad. destruct (Atoi_rejects rest Hbad) as (v & e & E).
    exists v. rewrite E. split; [reflexivity|].
    intros Hlen. rewrite (Atoi_rejects_short rest Hbad Hlen) in E. congruence.
  - intros Hgood Hlen. destruct rest as [|c s']; [discriminate|].
    rewrite (Atoi_accepts_short c s' Hgood Hlen). eexists. reflexivity.
Qed.

Lemma SplitDomainPort_first_colon_witness :
  IndexByte "example.com" ":" = -1
  /\ SplitDomainPort "example.com" 443 = ("example.com", 443, true)
  /\ SplitDomainPort "example.com:80:x" 443 = ("example.com", 0, false).
Proof.
  pose proof (SplitDomainPort_first_colon "example.com" "80:x" 443 eq_refl)
    as (H1 & H2 & _).
  split; [reflexivity|]. split; [exact H1|exact H2].
Defined.

Lemma GetDomainWithoutPort_eq (host : string) :
  GetDomainWithoutPort host =
  (if IndexByte host ":" <? 0 then host
   else sliceTo host (IndexByte host ":"), true).
Proof.
  unfold GetDomainWithoutPort.
  destruct (first_cut host ":") as [Hn|(d & rest & -> & Hd)].
  - rewrite (SplitN_2_none _ _ Hn), Hn. reflexivity.
  - rewrite (SplitN_2_first _ _ _ Hd), (IndexByte_first _ _ _ Hd).
    pose proof (len_nonneg d). destruct (Z.ltb_spec (len d) 0); [lia|].
    rewrite sliceTo_app. reflexivity.
Qed.

(** C9, against the wording: the empty host is not a failure. *)
Lemma GetDomainWithoutPort_empty_host_succeeds :
  GetDomainWithoutPort "" = ("", true)
  /\ DropPort_spec "" = ("", false)
  /\ ~ (snd (GetDomainWithoutPort "") = false <-> "" = "").
Proof.
  split; [reflexivity|]. split; [reflexivity|].
  intros [_ H]. specialize (H eq_refl). discriminate H.
Qed.

(** C9, as the code has it: [GetDomainWithoutPort] returns the part of the
    host before its first colon (the whole host when it has none) and
    reports success on every host, the empty one included; its failure
    branch is never taken. *)
Theorem GetDomainWithoutPort_total (host : string) :
  snd (GetDomainWithoutPort host) = true
  /\ fst (GetDomainWithoutPort host)
     = (if IndexByte host ":" <? 0 then host
        else sliceTo host (IndexByte host ":"))
  /\ GetDomainWithoutPort "example.com:443" = ("example.com", true)
  /\ GetDomainWithoutPort "" = ("", true).
Proof. rewrite GetDomainWithoutPort_eq. repeat split. Qed.

Lemma GetBaseDomain_ok (domain : string) : snd (GetBaseDomain domain) = true.
Proof.
  unfold GetBaseDomain. pose proof (SplitN_2_length domain ".") as H.
  destruct (SplitN domain "." 2) as [|a0 [|a1 [|a2 l]]]; simpl in *;
    try reflexivity; lia.
Qed.

Lemma GetBaseDomain_dot (l rest : string) :
  IndexByte l "." = -1 -> GetBaseDomain (l +:+ String "." rest) = (rest, true).
Proof.
  intros H. unfold GetBaseDomain. rewrite (SplitN_2_first _ _ _ H). reflexivity.
Qed.

Lemma GetBaseDomain_no_dot (domain : string) :
  IndexByte domain "." = -1 -> GetBaseDomain domain = (domain, true).
Proof.
  intros H. unfold GetBaseDomain. rewrite (SplitN_2_none _ _ H). reflexivity.
Qed.

(** C10: [GetBaseDomain], [ReplaceSubdomainWithWildcard] and [GetTopFqdn]
    report success on every input string, the empty one included, because
    [SplitN(s, ".", 2)] has one or two elements and [Split(s, ".")] has at
    least one; the branches returning [("", false)] are never taken. *)
Theorem domain_utils_total (domain : string) :
  snd (GetBaseDomain domain) = true
  /\ snd (ReplaceSubdomainWithWildcard domain) = true
  /\ snd (GetTopFqdn domain) = true
  /\ (1 <= List.length (SplitN domain "." 2) <= 2)%nat
  /\ (1 <= List.length (Split domain "."))%nat
  /\ GetBaseDomain "" = ("", true)
  /\ ReplaceSubdomainWithWildcard "" = ("*.", true)
  /\ GetTopFqdn "" = ("", true).
Proof.
  assert (Hsplit : (1 <= List.length (Split domain "."))%nat).
  { apply genSplit_length. discriminate. }
  split; [apply GetBaseDomain_ok|].
  split.
  { unfold ReplaceSubdomainWithWildcard.
    pose proof (GetBaseDomain_ok domain) as H.
    destruct (GetBaseDomain domain) as [a b]. exact H. }
  split.
  { unfold GetTopFqdn.
    destruct (Z.geb_spec (Z.of_nat (List.length (Split domain "."))) 2);
      [reflexivity|].
    destruct (Z.eqb_spec (Z.of_nat (List.length (Split domain "."))) 1);
      [reflexivity|lia]. }
  split; [apply SplitN_2_length|].
  split; [exact Hsplit|].
  repeat split.
Qed.

(** The registrable-domain approximation on the usual shapes. *)
Example GetTopFqdn_samples :
  GetTopFqdn "a.b.example.com" = ("example.com", true)
  /\ GetTopFqdn "example.com" = ("example.com", true)
  /\ GetTopFqdn "localhost" = ("localhost", true).
Proof. vm_compute. repeat split. Qed.

Example SplitDomainPort_samples :
  SplitDomainPort "example.com:8080" 443 = ("example.com", 8080, true)
  /\ SplitDomainPort "example.com" 443 = ("example.com", 443, true)
  /\ SplitDomainPort "example.com:http" 443 = ("example.com", 0, false).
Proof. vm_compute. repeat split. Qed.

End UtilsFacts.

(* ===================================================================== *)
(** * router/router.go: results                                           *)
(* ===================================================================== *)

Module RouterFacts.
Import GoStrings Utils Http Httprouter Router GoStringsFacts UtilsFacts.

Section WithTargets.
Context {PR : Type -> Type} `{!PathRouter PR}.
Context {Route Redirect : Type}.

Local Abbreviation RW := (ResponseWriter Route Redirect).
Local Abbreviation Rtr := (Router.Router PR Route Redirect).

Implicit Types (r : Rtr) (rw : RW) (req : Request) (host : string).

Lemma serveRedirectHTTP_match r rw req host :
  serveRedirectHTTP r rw req host =
  match matchRedirect r req host with
  | Some (t, ps) => (true, rw ++ EvRedirect t ps :: nil)
  | None => (false, rw)
  end.
Proof.
  unfold serveRedirectHTTP, matchRedirect.
  destruct (redirect r !! host) as [h|]; simpl; [|reflexivity].
  destruct (Lookup h (Method req) (Path req)) as [[t ps]|]; reflexivity.
Qed.

Lemma serveRouteHTTP_match r rw req host :
  serveRouteHTTP r rw req host =
  match matchRoute r req host with
  | Some (t, ps) => (true, rw ++ EvRoute t ps :: nil)
  | None => (false, rw)
  end.
Proof.
  unfold serveRouteHTTP, matchRoute.
  destruct (route r !! host) as [h|]; simpl; [|reflexivity].
  destruct (Lookup h (Method req) (Path req)) as [[t ps]|]; reflexivity.
Qed.

Lemma ServeHTTP_unfold r rw req :
  ServeHTTP r rw req =
  match matchRedirect r req (Host req) with
  | Some (t, ps) => rw ++ EvRedirect t ps :: nil
  | None =>
      match matchRoute r req (Host req) with
      | Some (t, ps) => rw ++ EvRoute t ps :: nil
      | None =>
          if IndexByte (Host req) "." =? -1 then notFound r rw req
          else wildcardTier r rw req
                 (wildcardHost (Host req) (IndexByte (Host req) "."))
      end
  end.
Proof.
  unfold ServeHTTP, wildcardTier.
  rewrite serveRedirectHTTP_match.
  destruct (matchRedirect r req (Host req)) as [[t ps]|]; [reflexivity|].
  rewrite serveRouteHTTP_match.
  destruct (matchRoute r req (Host req)) as [[t ps]|]; [reflexivity|].
  destruct (IndexByte (Host req) "." =? -1); [reflexivity|].
  rewrite serveRedirectHTTP_match.
  destruct (matchRedirect r req _) as [[t ps]|]; [reflexivity|].
  rewrite serveRouteHTTP_match.
  destruct (matchRoute r req _) as [[t ps]|]; reflexivity.
Qed.


Lemma ServeHTTP_exact_route r rw req t ps :
  matchRedirect r req (Host req) = None ->
  matchRoute r req (Host req) = Some (t, ps) ->
  ServeHTTP r rw req = rw ++ EvRoute t ps :: nil.
Proof. intros H1 H2. rewrite ServeHTTP_unfold, H1, H2. reflexivity. Qed.

Lemma ServeHTTP_wildcard r rw req :
  matchRedirect r req (Host req) = None ->
  matchRoute r req (Host req) = None ->
  IndexByte (Host req) "." <> -1 ->
  ServeHTTP r rw req =
  wildcardTier r rw req (wildcardHost (Host req) (IndexByte (Host req) ".")).
Proof.
  intros H1 H2 Hdot. rewrite ServeHTTP_unfold, H1, H2.
  destruct (Z.eqb_spec (IndexByte (Host req) ".") (-1)); [contradiction|].
  reflexivity.
Qed.

Lemma ServeHTTP_no_dot r rw req :
  matchRedirect r req (Host req) = None ->
  matchRoute r req (Host req) = None ->
  IndexByte (Host req) "." = -1 ->
  ServeHTTP r rw req = notFound r rw req.
Proof.
  intros H1 H2 Hdot. rewrite ServeHTTP_unfold, H1, H2, Hdot. reflexivity.
Qed.

(** The derived key of a host [l.rest] whose first label [l] has no dot. *)
Lemma wildcardHost_first_label (l rest : string) :
  IndexByte l "." = -1 ->
  wildcardHost (l +:+ String "." rest)
    (IndexByte (l +:+ String "." rest) ".") = "*." +:+ rest.
Proof.
  intros Hl. rewrite (IndexByte_first _ _ _ Hl).
  unfold wildcardHost. rewrite sliceFrom_app. reflexivity.
Qed.

(** ** What registration does *)

Lemma hostRoute_spec r host r1 h :
  hostRoute r host = (r1, h) ->
  redirect r1 = redirect r /\ notFound r1 = notFound r
  /\ (forall k, k <> host -> route r1 !! k = route r !! k)
  /\ (route r !! host = Some h \/ (route r !! host = None /\ h = Httprouter.New)).
Proof.
  unfold hostRoute. destruct (route r !! host) as [h0|] eqn:E; intros [= <- <-].
  - repeat split; auto.
  - simpl. repeat split; auto.
    intros k Hk. apply lookup_insert_ne. congruence.
Qed.

Lemma hostRedirect_spec r host r1 h :
  hostRedirect r host = (r1, h) ->
  route r1 = route r /\ notFound r1 = notFound r
  /\ (forall k, k <> host -> redirect r1 !! k = redirect r !! k)
  /\ (redirect r !! host = Some h
      \/ (redirect r !! host = None /\ h = Httprouter.New)).
Proof.
  unfold hostRedirect. destruct (redirect r !! host) as [h0|] eqn:E;
    intros [= <- <-].
  - repeat split; auto.
  - simpl. repeat split; auto.
    intros k Hk. apply lookup_insert_ne. congruence.
Qed.

Lemma AddRoute_inv r host path t r' :
  AddRoute r host path t = Some r' ->
  exists h h',
    (route r !! host = Some h \/ (route r !! host = None /\ h = Httprouter.New))
    /\ Handler h MethodGet (normPath path) t = Some h'
    /\ route r' !! host = Some h'
    /\ (forall k, k <> host -> route r' !! k = route r !! k)
    /\ redirect r' = redirect r /\ notFound r' = notFound r.
Proof.
  unfold AddRoute. destruct (hostRoute r host) as [r1 h] eqn:E.
  apply hostRoute_spec in E as (Hred & Hnf & Hother & Hh).
  destruct (Handler h MethodGet (normPath path) t) as [h'|] eqn:EH; [|discriminate].
  intros [= <-]. exists h, h'. simpl. repeat split; auto.
  - apply lookup_insert_eq.
  - intros k Hk. rewrite lookup_insert_ne by congruence. auto.
Qed.

Lemma AddRedirect_inv r host path t r' :
  AddRedirect r host path t = Some r' ->
  exists h h',
    (redirect r !! host = Some h
     \/ (redirect r !! host = None /\ h = Httprouter.New))
    /\ Handler h MethodGet (normPath path) t = Some h'
    /\ redirect r' !! host = Some h'
    /\ (forall k, k <> host -> redirect r' !! k = redirect r !! k)
    /\ route r' = route r /\ notFound r' = notFound r.
Proof.
  unfold AddRedirect. destruct (hostRedirect r host) as [r1 h] eqn:E.
  apply hostRedirect_spec in E as (Hred & Hnf & Hother & Hh).
  destruct (Handler h MethodGet (normPath path) t) as [h'|] eqn:EH; [|discriminate].
  intros [= <-]. exists h, h'. simpl. repeat split; auto.
  - apply lookup_insert_eq.
  - intros k Hk. rewrite lookup_insert_ne by congruence. auto.
Qed.

End WithTargets.
End RouterFacts.

(* ===================================================================== *)
(** * Registration and the request method                                 *)
(* ===================================================================== *)

Module RouterRegistration.
Import GoStrings Http Httprouter Router GoStringsFacts RouterFacts.

Section WithTargets.
Context {PR : Type -> Type} `{!PathRouter PR}.
Context {Route Redirect : Type}.

Local Abbreviation RW := (ResponseWriter Route Redirect).
Local Abbreviation Rtr := (Router.Router PR Route Redirect).

Implicit Types (r : Rtr) (rw : RW) (req : Request) (host : string).

(** A target added with [AddRoute] is found by a GET request for the same
    host and the normalised path. *)
Lemma AddRoute_registers r host path t r' req :
  AddRoute r host path t = Some r' ->
  Method req = MethodGet -> Path req = normPath path ->
  exists ps, matchRoute r' req host = Some (t, ps).
Proof.
  intros (h & h' & _ & HH & Hr' & _)%AddRoute_inv Hm Hp.
  destruct (Lookup_Handler _ _ _ _ _ _ HH) as [ps Hps].
  exists ps. unfold matchRoute. rewrite Hr', Hm, Hp. exact Hps.
Qed.

Lemma AddRedirect_registers r host path t r' req :
  AddRedirect r host path t = Some r' ->
  Method req = MethodGet -> Path req = normPath path ->
  exists ps, matchRedirect r' req host = Some (t, ps).
Proof.
  intros (h & h' & _ & HH & Hr' & _)%AddRedirect_inv Hm Hp.
  destruct (Lookup_Handler _ _ _ _ _ _ HH) as [ps Hps].
  exists ps. unfold matchRedirect. rewrite Hr', Hm, Hp. exact Hps.
Qed.


Lemma AddRedirect_keeps_route r host path t r' req k :
  AddRedirect r host path t = Some r' ->
  matchRoute r' req k = matchRoute r req k.
Proof.
  intros (h & h' & _ & _ & _ & _ & Hrt & _)%AddRedirect_inv.
  unfold matchRoute. rewrite Hrt. reflexivity.
Qed.

Lemma registerAll_Built r regs r' :
  Built r -> registerAll r regs = Some r' -> Built r'.
Proof.
  revert r. induction regs as [|reg regs IH]; intros r HB; simpl.
  - intros [= <-]. exact HB.
  - destruct (register r reg) as [r1|] eqn:E; [|discriminate].
    apply IH. destruct reg; simpl in E.
    + eapply Built_AddRoute; eauto.
    + eapply Built_AddRedirect; eauto.
Qed.

Lemma built_Built (regs : list (Reg (Route := Route) (Redirect := Redirect))) :
  Built (built regs : Rtr).
Proof.
  unfold built. destruct (registerAll New regs) as [r|] eqn:E.
  - eapply registerAll_Built; [apply Built_New|exact E].
  - apply Built_New.
Qed.

(** Routers built through the API keep the handler that [New] installed. *)
Lemma Built_notFound r : Built r -> notFound r = notFoundHandler.
Proof.
  induction 1 as [|r host path t r' _ IH HA|r host path t r' _ IH HA].
  - reflexivity.
  - apply AddRoute_inv in HA as (h & h' & _ & _ & _ & _ & _ & ->). exact IH.
  - apply AddRedirect_inv in HA as (h & h' & _ & _ & _ & _ & _ & ->). exact IH.
Qed.

Lemma getOnly_insert {T} (tbl : gmap string (PR T)) host h h' p t :
  getOnly tbl ->
  (tbl !! host = Some h \/ (tbl !! host = None /\ h = Httprouter.New)) ->
  Handler h MethodGet p t = Some h' ->
  forall tbl' : gmap string (PR T),
    tbl' !! host = Some h' ->
    (forall k, k <> host -> tbl' !! k = tbl !! k) ->
    getOnly tbl'.
Proof.
  intros Hold Hh HH tbl' Hhost Hother k hk m q Hk Hm.
  destruct (decide (k = host)) as [->|Hne].
  - rewrite Hhost in Hk. injection Hk as <-.
    rewrite (Lookup_other_method _ _ _ _ _ _ q _ HH Hm).
    destruct Hh as [Hh|[_ ->]].
    + eapply Hold; eauto.
    + apply Lookup_New.
  - rewrite (Hother k Hne) in Hk. eapply Hold; eauto.
Qed.

Lemma Built_getOnly r : Built r -> getOnly (route r) /\ getOnly (redirect r).
Proof.
  induction 1 as [|r host path t r' _ [IH1 IH2] HA|r host path t r' _ [IH1 IH2] HA].
  - split; intros host h m p Hk; simpl in Hk; rewrite lookup_empty in Hk;
      discriminate.
  - apply AddRoute_inv in HA as (h & h' & Hh & HH & Hr' & Hother & -> & _).
    split; [|exact IH2]. eapply getOnly_insert; eauto.
  - apply AddRedirect_inv in HA as (h & h' & Hh & HH & Hr' & Hother & -> & _).
    split; [exact IH1|]. eapply getOnly_insert; eauto.
Qed.

Lemma Built_other_method_misses r req host :
  Built r -> Method req <> MethodGet ->
  matchRoute r req host = None /\ matchRedirect r req host = None.
Proof.
  intros [H1 H2]%Built_getOnly Hm. unfold matchRoute, matchRedirect. split.
  - destruct (route r !! host) as [h|] eqn:E; simpl; [|reflexivity].
    eapply H1; eauto.
  - destruct (redirect r !! host) as [h|] eqn:E; simpl; [|reflexivity].
    eapply H2; eauto.
Qed.

(** With all four lookups missing on a host with a dot, [ServeHTTP] falls
    off its end: the writer is returned as it came in. *)
Lemma ServeHTTP_dotted_miss r rw req :
  matchRedirect r req (Host req) = None ->
  matchRoute r req (Host req) = None ->
  IndexByte (Host req) "." <> -1 ->
  matchRedirect r req (wildcardHost (Host req) (IndexByte (Host req) ".")) = None ->
  matchRoute r req (wildcardHost (Host req) (IndexByte (Host req) ".")) = None ->
  ServeHTTP r rw req = rw.
Proof.
  intros H1 H2 Hdot H3 H4. rewrite (ServeHTTP_wildcard _ _ _ H1 H2 Hdot).
  unfold wildcardTier. rewrite H3, H4. reflexivity.
Qed.

End WithTargets.
End RouterRegistration.

(* ===================================================================== *)
(** * The dispatcher: precedence, misses, wildcard, method                *)
(* ===================================================================== *)

Module Dispatch.
Import GoStrings Utils Http Httprouter ExactRouter Router Samples.
Import GoStringsFacts UtilsFacts RouterFacts RouterRegistration.

Lemma notFoundLine_eq :
  Fmt.Sprintf_d_s_LF StatusNotFound (StatusText StatusNotFound) = notFoundLine.
Proof. vm_compute. reflexivity. Qed.





(** C2, at a request the code can receive: a GET for [example.com/] on a
    router with no registration.  All four lookups miss, the host has a
    dot, and [ServeHTTP] returns without a call on the writer, where the
    not-found handler would have written its line; the same request for a
    host without a dot does get that line. *)
Theorem dotted_miss_writes_nothing :
  let r : SRouter := Router.New in
  let req := get "example.com" "/" in
  IndexByte (Host req) "." <> -1
  /\ matchRedirect r req "example.com" = None
  /\ matchRoute r req "example.com" = None
  /\ wildcardHost (Host req) (IndexByte (Host req) ".") = "*.com"
  /\ matchRedirect r req "*.com" = None
  /\ matchRoute r req "*.com" = None
  /\ ServeHTTP r nil req = nil
  /\ notFound r nil req = EvWrite notFoundLine :: nil
  /\ ServeHTTP r nil (get "localhost" "/") = EvWrite notFoundLine :: nil.
Proof. vm_compute. repeat split; discriminate. Qed.

(** C4, against the wording: on a request that reaches the not-found
    handler the writer sees one [Write] of "404 Not Found" and a line
    feed, and no [WriteHeader]; the status sent with it is 200 and the body
    has the line feed. *)
Lemma not_found_is_not_status_404 :
  let rw := ServeHTTP (Router.New : SRouter) nil (get "localhost" "/") in
  rw = EvWrite notFoundLine :: nil
  /\ StatusCode rw = Some 200
  /\ Body rw = notFoundLine
  /\ ~ (StatusCode rw = Some 404 /\ Body rw = "404 Not Found").
Proof.
  vm_compute. repeat split. intros [H _]. discriminate H.
Qed.

(** C4, as the code has it: a request whose host has no dot and which no
    exact registration answers receives, from a router built through the
    API, the plain-text body "404 Not Found" followed by one line feed:
    status code, a space, status text, line feed. *)
Theorem not_found_body
    {PR : Type -> Type} `{!PathRouter PR} {Route Redirect : Type}
    (r : Router.Router PR Route Redirect) (req : Request)
    (HB : Built r)
    (Hdot : IndexByte (Host req) "." = -1)
    (Hred : matchRedirect r req (Host req) = None)
    (Hrt : matchRoute r req (Host req) = None) :
  Body (ServeHTTP r nil req) = notFoundLine
  /\ notFoundLine
     = Fmt.verb_d 404 +:+ " " +:+ StatusText 404 +:+ Fmt.LF
  /\ notFoundLine = "404 Not Found" +:+ Fmt.LF.
Proof.
  rewrite (ServeHTTP_no_dot _ _ _ Hred Hrt Hdot), (Built_notFound r HB).
  unfold notFoundHandler. rewrite notFoundLine_eq. repeat split.
Qed.

Lemma not_found_body_witness :
  Body (ServeHTTP routerMixed nil (get "intranet" "/status")) = notFoundLine.
Proof.
  refine (proj1 (not_found_body routerMixed (get "intranet" "/status") _ _ _ _)).
  - apply built_Built.
  - reflexivity.
  - vm_compute; reflexivity.
  - vm_compute; reflexivity.
Defined.

(** C7, against the wording: [example.com/] is registered in both tables,
    and a POST for it matches neither; the same request as a GET is
    redirected. *)
Lemma post_misses_get_registration :
  matchRedirect routerAB (get "example.com" "/") "example.com" = Some ("B", nil)
  /\ matchRoute routerAB (get "example.com" "/") "example.com" = Some ("A", nil)
  /\ matchRedirect routerAB (post "example.com" "/") "example.com" = None
  /\ matchRoute routerAB (post "example.com" "/") "example.com" = None
  /\ ServeHTTP routerAB nil (get "example.com" "/") = EvRedirect "B" nil :: nil
  /\ ServeHTTP routerAB nil (post "example.com" "/") = nil
  /\ ServeHTTP routerAB nil (post "example.com" "/")
     <> ServeHTTP routerAB nil (get "example.com" "/").
Proof. vm_compute. repeat split. discriminate. Qed.

(** C7, as the code has it.  [AddRoute] and [AddRedirect] register every
    target under GET only, and the lookup is made under the request's own
    method.  On a router built through the API: a target just added is found
    by a GET request for its host and normalised path; a request with any
    other method is answered by no table under any host key, so no target
    is invoked for it and it ends as a miss (the not-found line on a host
    without a dot, no call on the writer otherwise). *)
Theorem registrations_match_get_only
    {PR : Type -> Type} `{!PathRouter PR} {Route Redirect : Type}
    (r : Router.Router PR Route Redirect)
    (rw : ResponseWriter Route Redirect) (req : Request)
    (HB : Built r) :
  (forall host path t r',
      AddRoute r host path t = Some r' ->
      Method req = MethodGet -> Path req = normPath path ->
      exists ps, matchRoute r' req host = Some (t, ps))
  /\ (forall host path t r',
      AddRedirect r host path t = Some r' ->
      Method req = MethodGet -> Path req = normPath path ->
      exists ps, matchRedirect r' req host = Some (t, ps))
  /\ (Method req <> MethodGet ->
      forall host,
        matchRoute r req host = None /\ matchRedirect r req host = None)
  /\ (Method req <> MethodGet ->
      ServeHTTP r rw req =
      if IndexByte (Host req) "." =? -1
      then rw ++ EvWrite notFoundLine :: nil else rw).
Proof.
  split; [intros host path t r'; apply AddRoute_registers|].
  split; [intros host path t r'; apply AddRedirect_registers|].
  split; [intros Hm host; apply Built_other_method_misses; assumption|].
  intros Hm.
  assert (Hmiss : forall host,
             matchRoute r req host = None /\ matchRedirect r req host = None)
    by (intros host; apply Built_other_method_misses; assumption).
  rewrite ServeHTTP_unfold. unfold wildcardTier.
  rewrite (proj2 (Hmiss (Host req))), (proj1 (Hmiss (Host req))).
  destruct (IndexByte (Host req) "." =? -1).
  - rewrite (Built_notFound r HB). unfold notFoundHandler.
    rewrite notFoundLine_eq. reflexivity.
  - rewrite (proj2 (Hmiss _)), (proj1 (Hmiss _)). reflexivity.
Qed.

Lemma registrations_match_get_only_witness :
  Built routerAB
  /\ (forall host,
        matchRoute routerAB (post "example.com" "/") host = None
        /\ matchRedirect routerAB (post "example.com" "/") host = None)
  /\ ServeHTTP routerAB nil (post "example.com" "/") = nil.
Proof.
  pose proof (registrations_match_get_only routerAB nil
                (post "example.com" "/") (built_Built _)) as (_ & _ & H3 & H4).
  split; [apply built_Built|]. split.
  - apply H3. discriminate.
  - apply H4. discriminate.
Defined.

(** C5.  The wildcard form drops one label: [ReplaceSubdomainWithWildcard]
    gives "*.b.com" for "a.b.com" and "*.com" for both "b.com" and "com".
    In the dispatcher, for a host [l.rest] whose first label [l] has no dot,
    the fallback key is "*" followed by the host from its first dot on,
    which is "*.rest", the same as the wildcard form; after both exact
    lookups missed, the outcome is decided by the tables under that one key
    and no other.  So a request for a.b.example.com is looked up under
    "*.b.example.com" and is not served by a registration for
    "*.example.com", which does serve shop.example.com. *)
Theorem wildcard_strips_one_label
    {PR : Type -> Type} `{!PathRouter PR} {Route Redirect : Type}
    (r : Router.Router PR Route Redirect)
    (rw : ResponseWriter Route Redirect) (req : Request)
    (l rest : string)
    (Hhost : Host req = l +:+ String "." rest)
    (Hl : IndexByte l "." = -1) :
  (ReplaceSubdomainWithWildcard "a.b.com" = ("*.b.com", true)
   /\ ReplaceSubdomainWithWildcard "b.com" = ("*.com", true)
   /\ ReplaceSubdomainWithWildcard "com" = ("*.com", true))
  /\ IndexByte (Host req) "." = len l
  /\ wildcardHost (Host req) (IndexByte (Host req) ".")
     = "*" +:+ sliceFrom (Host req) (len l)
  /\ wildcardHost (Host req) (IndexByte (Host req) ".") = "*." +:+ rest
  /\ ReplaceSubdomainWithWildcard (Host req) = ("*." +:+ rest, true)
  /\ (matchRedirect r req (Host req) = None ->
      matchRoute r req (Host req) = None ->
      ServeHTTP r rw req = wildcardTier r rw req ("*." +:+ rest))
  /\ (wildcardHost "a.b.example.com" (IndexByte "a.b.example.com" ".")
      = "*.b.example.com"
      /\ ServeHTTP routerC nil (get "a.b.example.com" "/") = nil
      /\ ServeHTTP routerC nil (get "shop.example.com" "/")
         = EvRoute "C" nil :: nil).
Proof.
  split; [vm_compute; repeat split|].
  assert (Hidx : IndexByte (Host req) "." = len l)
    by (rewrite Hhost; apply IndexByte_first, Hl).
  assert (Hw : wildcardHost (Host req) (IndexByte (Host req) ".")
               = "*." +:+ rest)
    by (rewrite Hhost; apply wildcardHost_first_label, Hl).
  split; [exact Hidx|].
  split; [rewrite Hidx; reflexivity|].
  split; [exact Hw|].
  split.
  { unfold ReplaceSubdomainWithWildcard.
    rewrite Hhost, (GetBaseDomain_dot _ _ Hl). reflexivity. }
  split.
  { intros H1 H2. rewrite <- Hw. apply ServeHTTP_wildcard; try assumption.
    rewrite Hidx. pose proof (len_nonneg l). lia. }
  vm_compute. repeat split.
Qed.

Lemma wildcard_strips_one_label_witness :
  IndexByte "a" "." = -1
  /\ wildcardHost "a.b.example.com" (IndexByte "a.b.example.com" ".")
     = "*.b.example.com"
  /\ ServeHTTP routerC nil (get "a.b.example.com" "/")
     = wildcardTier routerC nil (get "a.b.example.com" "/") "*.b.example.com".
Proof.
  pose proof (wildcard_strips_one_label routerC nil (get "a.b.example.com" "/")
                "a" "b.example.com" eq_refl eq_refl)
    as (_ & _ & _ & H4 & _ & H6 & _).
  split; [reflexivity|]. split; [exact H4|].
  apply H6; vm_compute; reflexivity.
Defined.

End Dispatch.

(* ===================================================================== *)
(** * favicons/favicons.go: a failed rebuild                              *)
(* ===================================================================== *)

Module FaviconsFacts.
Import Favicons.

Section WithImages.
Context {FaviconImage : Type}.
Variable CreateFaviconImage : string -> option FaviconImage.
Variable PreProcess :
  FaviconList FaviconImage -> FaviconList FaviconImage * option error.

Local Abbreviation FL := (FaviconList FaviconImage).
Local Abbreviation internalCompile' :=
  (internalCompile CreateFaviconImage PreProcess).
Local Abbreviation threadCompile' :=
  (threadCompile CreateFaviconImage PreProcess).
Local Abbreviation scanRows' := (scanRows CreateFaviconImage PreProcess).
Local Abbreviation waitGroup' := (waitGroup PreProcess).

Implicit Types (f : Favicons FaviconImage) (m : gmap string FL).






End WithImages.



End FaviconsFacts.

(* ===================================================================== *)
(** * Splitting and joining at a separator byte                           *)
(* ===================================================================== *)

Module SplitFacts.
Import GoStrings GoStringsFacts.

Lemma Count_nonneg (s : string) (c : ascii) : 0 <= Count s c.
Proof. induction s as [|a s IH]; simpl; [lia|]. destruct (Ascii.eqb a c); lia. Qed.

Lemma Count_le_len (s : string) (c : ascii) : Count s c <= len s.
Proof.
  induction s as [|a s IH]; simpl; [unfold len; simpl; lia|].
  rewrite len_cons. destruct (Ascii.eqb a c); lia.
Qed.

Lemma Count_none (s : string) (c : ascii) :
  IndexByte s c = -1 -> Count s c = 0.
Proof.
  induction s as [|a s IH]; simpl; [reflexivity|].
  destruct (Ascii.eqb a c); [discriminate|].
  destruct (IndexByte_range s c) as [Hn|Hr].
  - intros _. rewrite (IH Hn). reflexivity.
  - destruct (Z.ltb_spec (IndexByte s c) 0); lia.
Qed.

Lemma Count_app (s t : string) (c : ascii) :
  Count (s +:+ t) c = Count s c + Count t c.
Proof.
  induction s as [|a s IH]; [rewrite app_nil_l; simpl; lia|].
  rewrite app_cons. simpl. rewrite IH. lia.
Qed.

Lemma Count_cut (d rest : string) (c : ascii) :
  IndexByte d c = -1 -> Count (d +:+ String c rest) c = Count rest c + 1.
Proof.
  intros Hd. rewrite Count_app, (Count_none _ _ Hd). simpl.
  rewrite Ascii.eqb_refl. lia.
Qed.

(** A string that has the byte is never free of it, and conversely. *)
Lemma IndexByte_app_none (s t : string) (c : ascii) :
  IndexByte s c = -1 -> IndexByte t c = -1 -> IndexByte (s +:+ t) c = -1.
Proof.
  intros Hs Ht. induction s as [|a s IH]; [exact Ht|].
  rewrite app_cons. simpl in Hs |- *. destruct (Ascii.eqb a c); [discriminate|].
  destruct (IndexByte_range s c) as [Hn|Hr].
  - rewrite (IH Hn). reflexivity.
  - destruct (Z.ltb_spec (IndexByte s c) 0); lia.
Qed.

Lemma IndexByte_cut_found (d rest : string) (c : ascii) :
  IndexByte d c = -1 -> IndexByte (d +:+ String c rest) c <> -1.
Proof.
  intros Hd. rewrite (IndexByte_first _ _ _ Hd). pose proof (len_nonneg d). lia.
Qed.

Lemma Split_eq (s : string) (sep : ascii) :
  Split s sep = splitLoop (Z.to_nat (Count s sep)) s sep.
Proof.
  unfold Split, genSplit.
  change (-1 =? 0) with false. change (-1 <? 0) with true. cbv iota.
  pose proof (Count_le_len s sep).
  destruct (Z.gtb_spec (Count s sep + 1) (len s + 1)); [lia|].
  f_equal. lia.
Qed.

(** [Split] on a string without the separator: the string alone. *)
Lemma Split_none (s : string) (sep : ascii) :
  IndexByte s sep = -1 -> Split s sep = s :: nil.
Proof. intros H. rewrite Split_eq. apply splitLoop_none, H. Qed.

(** [Split] cuts at the first separator and goes on with the rest. *)
Lemma Split_cut (d rest : string) (sep : ascii) :
  IndexByte d sep = -1 ->
  Split (d +:+ String sep rest) sep = d :: Split rest sep.
Proof.
  intros Hd. rewrite !Split_eq, (Count_cut _ _ _ Hd).
  pose proof (Count_nonneg rest sep).
  replace (Z.to_nat (Count rest sep + 1)) with (S (Z.to_nat (Count rest sep)))
    by lia.
  simpl splitLoop. rewrite (IndexByte_first _ _ _ Hd).
  pose proof (len_nonneg d). destruct (Z.ltb_spec (len d) 0); [lia|].
  rewrite sliceTo_app, sliceFrom_app_sep. reflexivity.
Qed.

(** Induction over the cuts of a string at a byte. *)
Lemma cut_ind (c : ascii) (P : string -> Prop) :
  (forall s, IndexByte s c = -1 -> P s) ->
  (forall d rest, IndexByte d c = -1 -> P rest -> P (d +:+ String c rest)) ->
  forall s, P s.
Proof.
  intros Hnone Hcut s.
  remember (String.length s) as n eqn:Hn.
  revert s Hn. induction n as [n IH] using lt_wf_ind. intros s ->.
  destruct (first_cut s c) as [H|(d & rest & -> & Hd)]; [apply Hnone, H|].
  apply Hcut; [exact Hd|].
  eapply IH; [|reflexivity].
  pose proof (len_app d (String c rest)) as E. rewrite len_cons in E.
  unfold len in E. lia.
Qed.

Lemma Split_length (s : string) (sep : ascii) :
  (1 <= List.length (Split s sep))%nat.
Proof. apply genSplit_length. discriminate. Qed.

(** The pieces of [Split] do not hold the separator, and joining them with
    it gives the string back. *)
Lemma Split_pieces (s : string) (sep : ascii) :
  Forall (fun x => IndexByte x sep = -1) (Split s sep).
Proof.
  induction s as [s H|d rest Hd IH] using (cut_ind sep).
  - rewrite (Split_none _ _ H). constructor; [exact H|constructor].
  - rewrite (Split_cut _ _ _ Hd). constructor; assumption.
Qed.

Lemma Join_cons (x : string) (l : list string) (sep : string) :
  l <> nil -> Join (x :: l) sep = x +:+ sep +:+ Join l sep.
Proof. destruct l; [contradiction|reflexivity]. Qed.

Lemma Join_Split (s : string) (sep : ascii) :
  Join (Split s sep) (String sep "") = s.
Proof.
  induction s as [s H|d rest Hd IH] using (cut_ind sep).
  - rewrite (Split_none _ _ H). reflexivity.
  - rewrite (Split_cut _ _ _ Hd), Join_cons, IH; [reflexivity|].
    pose proof (Split_length rest sep). destruct (Split rest sep); simpl in *;
      [lia|discriminate].
Qed.

End SplitFacts.

(* ===================================================================== *)
(** * utils/domain-utils.go: labels, top domain, wildcard form            *)
(* ===================================================================== *)

Module DomainFacts.
Import GoStrings GoStrconv Utils SpecWords.
Import GoStringsFacts GoStrconvFacts UtilsFacts SplitFacts.

Lemma app_assoc (s t u : string) : (s +:+ t) +:+ u = s +:+ t +:+ u.
Proof.
  induction s as [|a s IH]; [reflexivity|].
  rewrite !app_cons, IH. reflexivity.
Qed.

Lemma IndexByte_app_found (s t : string) (c : ascii) :
  IndexByte (s +:+ String c t) c <> -1.
Proof.
  induction s as [|a s IH].
  - rewrite app_nil_l. simpl. rewrite Ascii.eqb_refl. discriminate.
  - rewrite app_cons. simpl. destruct (Ascii.eqb a c); [discriminate|].
    destruct (IndexByte_range (s +:+ String c t) c) as [Hn|Hr];
      [contradiction|].
    destruct (Z.ltb_spec (IndexByte (s +:+ String c t) c) 0); lia.
Qed.

Lemma Split_dot_length (d : string) (sep : ascii) :
  IndexByte d sep <> -1 -> (2 <= List.length (Split d sep))%nat.
Proof.
  destruct (first_cut d sep) as [H|(l & rest & -> & Hl)]; [contradiction|].
  intros _. rewrite (Split_cut _ _ _ Hl). simpl.
  pose proof (Split_length rest sep). lia.
Qed.

Lemma lastTwo_cons (x : string) (l : list string) :
  (2 <= List.length l)%nat -> lastTwo (x :: l) = lastTwo l.
Proof.
  intros H. unfold lastTwo. simpl List.length.
  replace (S (List.length l) - 2)%nat with (S (List.length l - 2)) by lia.
  reflexivity.
Qed.

Lemma GetTopFqdn_long (d : string) :
  (2 <= List.length (Split d "."))%nat ->
  GetTopFqdn d = (Join (lastTwo (Split d ".")) ".", true).
Proof.
  intros H. unfold GetTopFqdn.
  destruct (Z.geb_spec (Z.of_nat (List.length (Split d "."))) 2);
    [reflexivity|lia].
Qed.

(** One label: the name itself. *)
Lemma GetTopFqdn_none (d : string) :
  IndexByte d "." = -1 -> GetTopFqdn d = (d, true).
Proof.
  intros H. unfold GetTopFqdn. rewrite (Split_none _ _ H). reflexivity.
Qed.

(** Two labels: the name itself. *)
Lemma GetTopFqdn_two (x y : string) :
  IndexByte x "." = -1 -> IndexByte y "." = -1 ->
  GetTopFqdn (x +:+ String "." y) = (x +:+ String "." y, true).
Proof.
  intros Hx Hy. rewrite GetTopFqdn_long;
    rewrite (Split_cut _ _ _ Hx), (Split_none _ _ Hy); [reflexivity|simpl; lia].
Qed.

(** A label put in front of a name of two or more labels is dropped. *)
Lemma GetTopFqdn_sub (l d : string) :
  IndexByte l "." = -1 -> IndexByte d "." <> -1 ->
  GetTopFqdn (l +:+ String "." d) = GetTopFqdn d.
Proof.
  intros Hl Hd. pose proof (Split_dot_length d "." Hd) as Hlen.
  rewrite (GetTopFqdn_long d Hlen), GetTopFqdn_long;
    rewrite (Split_cut _ _ _ Hl); [|simpl; lia].
  rewrite (lastTwo_cons _ _ Hlen). reflexivity.
Qed.

(** Whatever stands in front of the last two labels is dropped. *)
Lemma GetTopFqdn_under (sub x y : string) :
  IndexByte x "." = -1 -> IndexByte y "." = -1 ->
  GetTopFqdn (sub +:+ String "." (x +:+ String "." y))
  = (x +:+ String "." y, true).
Proof.
  intros Hx Hy.
  induction sub as [s H|l rest Hl IH] using (cut_ind ".").
  - rewrite (GetTopFqdn_sub _ _ H); [apply GetTopFqdn_two; assumption|].
    apply IndexByte_cut_found, Hx.
  - rewrite app_assoc, app_cons, (GetTopFqdn_sub _ _ Hl); [exact IH|].
    apply IndexByte_app_found.
Qed.

(** The result is the name itself when it has no dot, and otherwise its
    last two labels, which the name ends with. *)
Lemma GetTopFqdn_shape (d : string) :
  (IndexByte d "." = -1 /\ GetTopFqdn d = (d, true))
  \/ exists pre x y,
       IndexByte x "." = -1 /\ IndexByte y "." = -1
       /\ d = pre +:+ x +:+ String "." y
       /\ GetTopFqdn d = (x +:+ String "." y, true).
Proof.
  induction d as [s H|l rest Hl IH] using (cut_ind ".").
  - left. split; [exact H|apply GetTopFqdn_none, H].
  - right. destruct IH as [[Hr E]|(pre & x & y & Hx & Hy & -> & E)].
    + exists "", l, rest. repeat split; try assumption.
      apply GetTopFqdn_two; assumption.
    + exists (l +:+ String "." pre), x, y. repeat split; try assumption.
      * rewrite app_assoc, app_cons. reflexivity.
      * rewrite (GetTopFqdn_sub _ _ Hl); [exact E|].
        rewrite <- app_assoc. apply IndexByte_app_found.
Qed.

(** X1.  [GetTopFqdn] returns a tail of its argument: some prefix followed
    by the result is the argument again; and the result has at most one
    dot. *)
Theorem GetTopFqdn_is_suffix (d : string) :
  (exists pre, d = pre +:+ fst (GetTopFqdn d))
  /\ Count (fst (GetTopFqdn d)) "." <= 1.
Proof.
  destruct (GetTopFqdn_shape d) as [[H E]|(pre & x & y & Hx & Hy & Hd & E)];
    rewrite E; simpl fst.
  - split; [exists ""; reflexivity|]. rewrite (Count_none _ _ H). lia.
  - split; [exists pre; exact Hd|].
    rewrite (Count_cut _ _ _ Hx), (Count_none _ _ Hy). lia.
Qed.

(** X2.  [GetTopFqdn] is idempotent: the top domain of a top domain is that
    top domain. *)
Theorem GetTopFqdn_idempotent (d : string) :
  GetTopFqdn (fst (GetTopFqdn d)) = GetTopFqdn d.
Proof.
  destruct (GetTopFqdn_shape d) as [[H E]|(pre & x & y & Hx & Hy & Hd & E)];
    rewrite E; simpl fst.
  - exact E.
  - apply GetTopFqdn_two; assumption.
Qed.

(** X3.  Dropping the first label with [GetBaseDomain] does not change the
    top domain, as long as what remains still has a dot: a name of three or
    more labels and its base domain have the same [GetTopFqdn]. *)
Theorem GetTopFqdn_of_base (d : string)
    (Hdot : IndexByte (fst (GetBaseDomain d)) "." <> -1) :
  GetTopFqdn (fst (GetBaseDomain d)) = GetTopFqdn d.
Proof.
  destruct (first_cut d ".") as [H|(l & rest & -> & Hl)].
  - rewrite (GetBaseDomain_no_dot _ H) in *. reflexivity.
  - rewrite (GetBaseDomain_dot _ _ Hl) in *. simpl fst in *.
    symmetry. apply GetTopFqdn_sub; assumption.
Qed.

Lemma GetTopFqdn_of_base_witness :
  IndexByte (fst (GetBaseDomain "a.b.example.com")) "." <> -1
  /\ GetTopFqdn (fst (GetBaseDomain "a.b.example.com"))
     = GetTopFqdn "a.b.example.com".
Proof.
  assert (H : IndexByte (fst (GetBaseDomain "a.b.example.com")) "." <> -1)
    by (vm_compute; discriminate).
  split; [exact H|]. exact (GetTopFqdn_of_base "a.b.example.com" H).
Defined.

(** X4.  [GetBaseDomain] removes exactly the first label and its dot: for a
    name with a dot, a dot-free label, a dot and the result make up the name
    again; a name without a dot is returned unchanged. *)
Theorem GetBaseDomain_decomposes (d : string) :
  (IndexByte d "." = -1 /\ GetBaseDomain d = (d, true))
  \/ (IndexByte d "." <> -1
      /\ exists l, IndexByte l "." = -1
                   /\ d = l +:+ String "." (fst (GetBaseDomain d))
                   /\ len (fst (GetBaseDomain d)) = len d - len l - 1).
Proof.
  destruct (first_cut d ".") as [H|(l & rest & -> & Hl)].
  - left. split; [exact H|apply GetBaseDomain_no_dot, H].
  - right. split; [apply IndexByte_cut_found, Hl|].
    exists l. rewrite (GetBaseDomain_dot _ _ Hl). simpl fst.
    repeat split; [exact Hl|]. rewrite len_app, len_cons. lia.
Qed.

(** X5.  The wildcard form is stable: [GetBaseDomain] of a wildcard form is
    the base domain it was made from, so [ReplaceSubdomainWithWildcard]
    applied to its own result returns that result. *)
Theorem ReplaceSubdomainWithWildcard_stable (d : string) :
  GetBaseDomain (fst (ReplaceSubdomainWithWildcard d))
  = (fst (GetBaseDomain d), true)
  /\ ReplaceSubdomainWithWildcard (fst (ReplaceSubdomainWithWildcard d))
     = ReplaceSubdomainWithWildcard d.
Proof.
  assert (E : forall b, GetBaseDomain ("*." +:+ b) = (b, true)).
  { intros b. exact (GetBaseDomain_dot "*" b eq_refl). }
  unfold ReplaceSubdomainWithWildcard.
  pose proof (GetBaseDomain_ok d) as Hok.
  destruct (GetBaseDomain d) as [a b]. simpl in Hok. subst b. simpl fst.
  rewrite E. split; reflexivity.
Qed.

End DomainFacts.

(* ===================================================================== *)
(** * utils/domain-utils.go: host and port                                *)
(* ===================================================================== *)

Module PortFacts.
Import GoStrings GoStrconv Utils SpecWords.
Import GoStringsFacts GoStrconvFacts UtilsFacts SplitFacts DomainFacts.

Lemma is_digit_val (c : ascii) : is_digit c = true -> 0 <= digit_val c <= 9.
Proof.
  unfold is_digit, digit_val. intros [H1 H2]%andb_true_iff.
  apply Z.leb_le in H1, H2. lia.
Qed.

Lemma decimalValue_bounds (s : string) (acc : Z) :
  all_digits s = true -> 0 <= acc ->
  acc * 10 ^ len s <= decimalValue s acc < (acc + 1) * 10 ^ len s.
Proof.
  revert acc. induction s as [|c s IH]; intros acc Hs Hacc.
  - unfold len. simpl. lia.
  - simpl in Hs. apply andb_true_iff in Hs as [Hc Hs].
    pose proof (is_digit_val c Hc) as Hd.
    simpl decimalValue. rewrite len_cons.
    pose proof (len_nonneg s) as Hl.
    rewrite Z.pow_add_r by lia. change (10 ^ 1) with 10.
    specialize (IH (acc * 10 + digit_val c) Hs ltac:(lia)).
    assert (0 < 10 ^ len s) by (apply Z.pow_pos_nonneg; lia).
    nia.
Qed.

Lemma parseUintLoop_nonneg (s : string) (n v : Z) :
  0 <= n -> parseUintLoop s n = (v, None) -> 0 <= v.
Proof.
  revert n. induction s as [|c s IH]; intros n Hn; simpl.
  - intros [= <-]. exact Hn.
  - destruct (is_digit c); [|discriminate].
    destruct (n >=? maxUint64 / 10 + 1); [discriminate|].
    match goal with |- context [if ?b then _ else _] => destruct b end;
      [discriminate|].
    apply IH. apply Z.mod_pos_bound. reflexivity.
Qed.

Lemma ParseInt_range (s : string) (v : Z) :
  ParseInt s = (v, None) -> - 2 ^ 63 <= v <= 2 ^ 63 - 1.
Proof.
  destruct s as [|c s']; [discriminate|]. unfold ParseInt.
  set (body := if is_sign c then s' else String c s').
  destruct (ParseUint body) as [un [e|]] eqn:E.
  - destruct e; [discriminate|].
    assert (un = maxUint64) as ->.
    { unfold ParseUint in E. destruct body; [discriminate|].
      eapply parseUintLoop_range, E. }
    assert (H1 : (maxUint64 >=? 2 ^ 63) = true) by (vm_compute; reflexivity).
    assert (H2 : (maxUint64 >? 2 ^ 63) = true) by (vm_compute; reflexivity).
    rewrite H1, H2. destruct (Ascii.eqb c "-"); cbn [negb andb]; discriminate.
  - assert (Hun : 0 <= un).
    { unfold ParseUint in E. destruct body; [discriminate|].
      eapply parseUintLoop_nonneg; [|exact E]. lia. }
    destruct (Ascii.eqb c "-"); cbn [negb andb].
    + destruct (Z.gtb_spec un (2 ^ 63)); [discriminate|].
      intros [= <-]. lia.
    + destruct (Z.geb_spec un (2 ^ 63)); [discriminate|].
      intros [= <-]. lia.
Qed.

Lemma Atoi_range (s : string) (v : Z) :
  Atoi s = (v, None) -> - 2 ^ 63 <= v <= 2 ^ 63 - 1.
Proof.
  unfold Atoi.
  destruct ((0 <? len s) && (len s <? 19)) eqn:Hfast; [|apply ParseInt_range].
  apply andb_true_iff in Hfast as [_ Hlen]. apply Z.ltb_lt in Hlen.
  destruct s as [|c s']; [discriminate|].
  rewrite len_cons in Hlen.
  set (body := if is_sign c then s' else String c s').
  assert (Hbl : len body <= 18).
  { subst body. destruct (is_sign c); [lia|rewrite len_cons; lia]. }
  destruct body as [|b body'] eqn:Eb; [discriminate|].
  destruct (all_digits (String b body')) eqn:Hd.
  - rewrite (atoiFast_digits _ 0 Hd).
    pose proof (decimalValue_bounds _ 0 Hd ltac:(lia)) as Hv.
    assert (10 ^ len (String b body') <= 10 ^ 18)
      by (apply Z.pow_le_mono_r; lia).
    assert (Hlt : 10 ^ 18 < 2 ^ 63) by (vm_compute; reflexivity).
    set (P18 := 10 ^ 18) in *. set (P63 := 2 ^ 63) in *. clearbody P18 P63.
    destruct (Ascii.eqb c "-"); intros [= <-];
      change (decimalValue body' (0 * 10 + digit_val b))
        with (decimalValue (String b body') 0); lia.
  - rewrite (atoiFast_not_digits _ 0 Hd). discriminate.
Qed.

(** X6.  [SplitDomainPort] and [GetDomainWithoutPort] return the same domain
    for every host; that domain holds no colon, so dropping the port again
    changes nothing. *)
Theorem port_functions_agree (host : string) (defaultPort : Z) :
  fst (fst (SplitDomainPort host defaultPort)) = fst (GetDomainWithoutPort host)
  /\ IndexByte (fst (GetDomainWithoutPort host)) ":" = -1
  /\ GetDomainWithoutPort (fst (GetDomainWithoutPort host))
     = GetDomainWithoutPort host.
Proof.
  destruct (first_cut host ":") as [H|(d & rest & -> & Hd)].
  - rewrite (SplitDomainPort_no_colon _ _ H).
    assert (E : GetDomainWithoutPort host = (host, true)).
    { unfold GetDomainWithoutPort. rewrite (SplitN_2_none _ _ H). reflexivity. }
    rewrite E. simpl. rewrite E. auto.
  - rewrite (SplitDomainPort_colon _ _ _ Hd).
    assert (E : GetDomainWithoutPort (d +:+ String ":" rest) = (d, true)).
    { unfold GetDomainWithoutPort. rewrite (SplitN_2_first _ _ _ Hd).
      reflexivity. }
    rewrite E. simpl. repeat split; [exact Hd|].
    unfold GetDomainWithoutPort. rewrite (SplitN_2_none _ _ Hd). reflexivity.
Qed.

(** X7.  The default port is used for a host without a colon and for no
    other: once the host has a colon the result does not depend on the
    default, so a port that fails to parse is not replaced by it. *)
Theorem default_port_only_without_colon
    (host : string) (defaultPort defaultPort' : Z)
    (Hcolon : IndexByte host ":" <> -1) :
  SplitDomainPort host defaultPort = SplitDomainPort host defaultPort'.
Proof.
  destruct (first_cut host ":") as [H|(d & rest & -> & Hd)]; [contradiction|].
  rewrite !(SplitDomainPort_colon _ _ _ Hd). reflexivity.
Qed.

Lemma default_port_only_without_colon_witness :
  IndexByte "example.com:http" ":" <> -1
  /\ SplitDomainPort "example.com:http" 443
     = SplitDomainPort "example.com:http" 80.
Proof.
  assert (H : IndexByte "example.com:http" ":" <> -1)
    by (vm_compute; discriminate).
  split; [exact H|].
  exact (default_port_only_without_colon "example.com:http" 443 80 H).
Defined.

(** X8.  A port that [SplitDomainPort] reads from the host and reports as
    good is a Go [int], from [-2^63] to [2^63 - 1]: the function sets no
    narrower bound.  When the text after the first colon is a run of fewer
    than 19 decimal digits, the port is that number. *)
Theorem parsed_port_range
    (host d : string) (port defaultPort : Z)
    (Hcolon : IndexByte host ":" <> -1)
    (Hok : SplitDomainPort host defaultPort = (d, port, true)) :
  - 2 ^ 63 <= port <= 2 ^ 63 - 1
  /\ (forall digits,
        host = d +:+ String ":" digits ->
        nonNegativeInteger digits = true -> len digits < 19 ->
        port = decimalValue digits 0 /\ 0 <= port < 10 ^ 18).
Proof.
  destruct (first_cut host ":") as [H|(d0 & rest & -> & Hd)]; [contradiction|].
  rewrite (SplitDomainPort_colon _ _ _ Hd) in Hok.
  injection Hok as <- Hp Herr. split.
  - destruct (Atoi rest) as [v [e|]] eqn:E; [discriminate|].
    simpl in Hp. subst v. eapply Atoi_range, E.
  - intros digits Hhost Hdig Hlen.
    apply String.app_inj in Hhost. injection Hhost as ->.
    destruct digits as [|c s']; [discriminate|].
    unfold nonNegativeInteger in Hdig.
    assert (Hns : is_sign c = false).
    { simpl in Hdig. apply andb_true_iff in Hdig as [Hc _].
      pose proof (is_digit_val c Hc) as [Hv _]. unfold is_sign.
      destruct (Ascii.eqb_spec c "-") as [->|_];
        [exfalso; vm_compute in Hv; apply Hv; reflexivity|].
      destruct (Ascii.eqb_spec c "+") as [->|_];
        [exfalso; vm_compute in Hv; apply Hv; reflexivity|].
      reflexivity. }
    assert (Hsd : signedDecimal (String c s') = true).
    { unfold signedDecimal. rewrite Hns. exact Hdig. }
    rewrite (Atoi_accepts_short c s' Hsd Hlen) in Hp. rewrite Hns in Hp.
    assert (Hnm : Ascii.eqb c "-" = false).
    { unfold is_sign in Hns. apply orb_false_iff in Hns as [Hns _]. exact Hns. }
    rewrite Hnm in Hp. cbv beta zeta in Hp. cbn [fst] in Hp. subst port.
    split; [reflexivity|].
    pose proof (decimalValue_bounds _ 0 Hdig ltac:(lia)) as Hv.
    assert (10 ^ len (String c s') <= 10 ^ 18)
      by (apply Z.pow_le_mono_r; lia).
    lia.
Qed.

Lemma parsed_port_range_witness :
  IndexByte "example.com:70000" ":" <> -1
  /\ SplitDomainPort "example.com:70000" 443 = ("example.com", 70000, true)
  /\ - 2 ^ 63 <= 70000 <= 2 ^ 63 - 1.
Proof.
  assert (H : IndexByte "example.com:70000" ":" <> -1)
    by (vm_compute; discriminate).
  assert (E : SplitDomainPort "example.com:70000" 443
              = ("example.com", 70000, true)) by (vm_compute; reflexivity).
  split; [exact H|]. split; [exact E|].
  exact (proj1 (parsed_port_range _ _ _ _ H E)).
Defined.

End PortFacts.

(* ===================================================================== *)
(** * servers/api: who may manage a domain                                *)
(* ===================================================================== *)

Module ApiFacts.
Import GoStrings Utils Api.
Import GoStringsFacts UtilsFacts SplitFacts DomainFacts.

Lemma GetTopFqdn_ok (a : string) : snd (GetTopFqdn a) = true.
Proof.
  destruct (GetTopFqdn_shape a) as [[_ E]|(pre & x & y & _ & _ & _ & E)];
    rewrite E; reflexivity.
Qed.

Lemma validate_eq (a : string) (perms : PermStorage) :
  validateDomainOwnershipClaims a perms
  = Has perms ("owns=" +:+ fst (GetTopFqdn a)).
Proof.
  unfold validateDomainOwnershipClaims. pose proof (GetTopFqdn_ok a) as H.
  destruct (GetTopFqdn a) as [fqdn ok]. simpl in *. subst ok.
  destruct (Has perms ("owns=" +:+ fqdn)); reflexivity.
Qed.

(** X9.  A permission [owns=x.y] for a two-label domain covers that domain
    and every name below it, at any depth. *)
Theorem ownership_covers_subdomains
    (x y : string) (perms : PermStorage)
    (Hx : IndexByte x "." = -1) (Hy : IndexByte y "." = -1)
    (Hperm : "owns=" +:+ x +:+ String "." y ∈ perms) :
  validateDomainOwnershipClaims (x +:+ String "." y) perms = true
  /\ forall sub,
       validateDomainOwnershipClaims
         (sub +:+ String "." (x +:+ String "." y)) perms = true.
Proof.
  split; [|intros sub]; rewrite validate_eq.
  - rewrite (GetTopFqdn_two _ _ Hx Hy). simpl fst.
    unfold Has. apply bool_decide_eq_true. exact Hperm.
  - rewrite (GetTopFqdn_under sub _ _ Hx Hy). simpl fst.
    unfold Has. apply bool_decide_eq_true. exact Hperm.
Qed.

Lemma ownership_covers_subdomains_witness :
  validateDomainOwnershipClaims "example.com" (Set_ ∅ "owns=example.com") = true
  /\ validateDomainOwnershipClaims "a.b.example.com"
       (Set_ ∅ "owns=example.com") = true.
Proof.
  assert (Hp : "owns=" +:+ "example" +:+ String "." "com"
               ∈ Set_ ∅ "owns=example.com").
  { unfold Set_. apply elem_of_union. left. apply elem_of_singleton.
    reflexivity. }
  pose proof (ownership_covers_subdomains "example" "com"
                (Set_ ∅ "owns=example.com") eq_refl eq_refl Hp) as [H1 H2].
  split; [exact H1|exact (H2 "a.b")].
Defined.

(** X10.  The check looks at the top domain only: a name and its top domain
    get the same answer, the answer is yes exactly when the permissions hold
    [owns=] followed by that top domain, and a permission that names a domain
    with two or more dots is never the one that grants. *)
Theorem ownership_decided_by_top_domain (a : string) (perms : PermStorage) :
  validateDomainOwnershipClaims a perms
  = validateDomainOwnershipClaims (fst (GetTopFqdn a)) perms
  /\ (validateDomainOwnershipClaims a perms = true
      <-> "owns=" +:+ fst (GetTopFqdn a) ∈ perms)
  /\ (forall p, 2 <= Count p "." ->
        validateDomainOwnershipClaims a {[ "owns=" +:+ p ]} = false).
Proof.
  split; [|split].
  - rewrite !validate_eq. f_equal. f_equal.
    destruct (GetTopFqdn_shape a) as [[_ E]|(pre & x & y & Hx & Hy & _ & E)];
      rewrite E; simpl fst.
    + rewrite E. reflexivity.
    + rewrite (GetTopFqdn_two _ _ Hx Hy). reflexivity.
  - rewrite validate_eq. unfold Has. apply bool_decide_eq_true.
  - intros p Hp. rewrite validate_eq. unfold Has.
    apply bool_decide_eq_false. intros Hin.
    apply elem_of_singleton in Hin. apply String.app_inj in Hin.
    destruct (GetTopFqdn_shape a) as [[H E]|(pre & x & y & Hx & Hy & _ & E)];
      rewrite E in Hin; simpl fst in Hin; subst p.
    + rewrite (Count_none _ _ H) in Hp. lia.
    + rewrite (Count_cut _ _ _ Hx), (Count_none _ _ Hy) in Hp. lia.
Qed.

Lemma ownership_decided_by_top_domain_witness :
  2 <= Count "a.b.example.com" "."
  /\ validateDomainOwnershipClaims "a.b.example.com"
       {[ "owns=a.b.example.com" ]} = false
  /\ validateDomainOwnershipClaims "a.b.example.com"
       {[ "owns=example.com" ]} = true.
Proof.
  pose proof (ownership_decided_by_top_domain "a.b.example.com"
                {[ "owns=a.b.example.com" ]}) as (_ & _ & H3).
  pose proof (ownership_decided_by_top_domain "a.b.example.com"
                {[ "owns=example.com" ]}) as (_ & H2 & _).
  assert (Hc : 2 <= Count "a.b.example.com" ".") by (vm_compute; discriminate).
  split; [exact Hc|]. split; [exact (H3 "a.b.example.com" Hc)|].
  apply H2. apply elem_of_singleton. vm_compute. reflexivity.
Defined.

End ApiFacts.

(* ===================================================================== *)
(** * router/router.go: which table entries a request can reach           *)
(* ===================================================================== *)

Module ReachFacts.
Import GoStrings Utils Http Httprouter Router.
Import GoStringsFacts UtilsFacts SplitFacts DomainFacts RouterFacts
       RouterRegistration.

Lemma len_drop (n : nat) (s : string) : len (drop n s) <= len s.
Proof.
  revert s. induction n as [|n IH]; intros s; simpl; [lia|].
  destruct s as [|a s]; [lia|]. rewrite len_cons. specialize (IH s). lia.
Qed.

Lemma drop_app (n : nat) (s t : string) :
  Z.of_nat n <= len s -> drop n (s +:+ t) = drop n s +:+ t.
Proof.
  revert s. induction n as [|n IH]; intros s Hn; [reflexivity|].
  destruct s as [|a s]; [unfold len in Hn; simpl in Hn; lia|].
  rewrite app_cons. simpl. apply IH. rewrite len_cons in Hn. lia.
Qed.

Lemma IndexByte_app_l (s t : string) (c : ascii) :
  IndexByte s c <> -1 -> IndexByte (s +:+ t) c = IndexByte s c.
Proof.
  induction s as [|a s IH]; [intros H; contradiction H; reflexivity|].
  rewrite app_cons. simpl. destruct (Ascii.eqb a c); [reflexivity|].
  destruct (IndexByte_range s c) as [Hn|Hr].
  - rewrite Hn. simpl. intros H. contradiction H. reflexivity.
  - intros _. rewrite IH by lia. reflexivity.
Qed.

Lemma IndexByte_star (s : string) (c : ascii) :
  IndexByte s c <> -1 -> IndexByte ("*" +:+ s) c <> -1.
Proof.
  intros H. change ("*" +:+ s) with (String "*" s). cbn [IndexByte].
  destruct (Ascii.eqb "*" c); [lia|].
  destruct (IndexByte_range s c) as [Hn|Hr]; [contradiction|].
  destruct (Z.ltb_spec (IndexByte s c) 0); lia.
Qed.

Section WithTargets.
Context {PR : Type -> Type} `{!PathRouter PR}.
Context {Route Redirect : Type}.

Local Abbreviation RW := (ResponseWriter Route Redirect).
Local Abbreviation Rtr := (Router.Router PR Route Redirect).

Implicit Types (r : Rtr) (rw : RW) (req : Request) (host : string).

(** Two routers that answer alike under the request's host and under its
    wildcard host serve the request alike. *)
Lemma ServeHTTP_same_matches r r' rw req :
  notFound r' = notFound r ->
  matchRedirect r' req (Host req) = matchRedirect r req (Host req) ->
  matchRoute r' req (Host req) = matchRoute r req (Host req) ->
  (IndexByte (Host req) "." <> -1 ->
   let w := wildcardHost (Host req) (IndexByte (Host req) ".") in
   matchRedirect r' req w = matchRedirect r req w
   /\ matchRoute r' req w = matchRoute r req w) ->
  ServeHTTP r' rw req = ServeHTTP r rw req.
Proof.
  intros Hnf H1 H2 HW. rewrite !ServeHTTP_unfold, H1, H2, Hnf.
  destruct (matchRedirect r req (Host req)) as [[? ?]|]; [reflexivity|].
  destruct (matchRoute r req (Host req)) as [[? ?]|]; [reflexivity|].
  destruct (Z.eqb_spec (IndexByte (Host req) ".") (-1)); [reflexivity|].
  destruct (HW ltac:(assumption)) as [H3 H4].
  unfold wildcardTier. rewrite H3, H4. reflexivity.
Qed.

Lemma matches_same_entry r r' req k :
  route r' !! k = route r !! k -> redirect r' !! k = redirect r !! k ->
  matchRedirect r' req k = matchRedirect r req k
  /\ matchRoute r' req k = matchRoute r req k.
Proof.
  intros H1 H2. unfold matchRedirect, matchRoute. rewrite H1, H2. auto.
Qed.

(** All lookups of a request miss when neither table has an entry under its
    host or under its wildcard host. *)
Lemma ServeHTTP_no_entries r rw req :
  route r !! Host req = None -> redirect r !! Host req = None ->
  (IndexByte (Host req) "." <> -1 ->
   let w := wildcardHost (Host req) (IndexByte (Host req) ".") in
   route r !! w = None /\ redirect r !! w = None) ->
  ServeHTTP r rw req
  = if IndexByte (Host req) "." =? -1 then notFound r rw req else rw.
Proof.
  intros H1 H2 HW. rewrite ServeHTTP_unfold.
  unfold matchRedirect, matchRoute, wildcardTier. rewrite H1, H2. simpl.
  destruct (Z.eqb_spec (IndexByte (Host req) ".") (-1)); [reflexivity|].
  destruct (HW ltac:(assumption)) as [H3 H4].
  unfold matchRedirect, matchRoute. rewrite H3, H4. reflexivity.
Qed.

Lemma register_other_keys r reg r' k :
  register r reg = Some r' -> regHost reg <> k ->
  route r' !! k = route r !! k /\ redirect r' !! k = redirect r !! k
  /\ notFound r' = notFound r.
Proof.
  destruct reg as [h p t|h p t]; simpl; intros HA Hk.
  - apply AddRoute_inv in HA as (? & ? & _ & _ & _ & Hother & -> & ->).
    rewrite Hother by congruence. auto.
  - apply AddRedirect_inv in HA as (? & ? & _ & _ & _ & Hother & -> & ->).
    rewrite Hother by congruence. auto.
Qed.

Lemma registerAll_other_keys regs r r' k :
  registerAll r regs = Some r' ->
  (forall reg, In reg regs -> regHost reg <> k) ->
  route r' !! k = route r !! k /\ redirect r' !! k = redirect r !! k.
Proof.
  revert r. induction regs as [|reg regs IH]; intros r; simpl.
  - intros [= <-] _. auto.
  - destruct (register r reg) as [r1|] eqn:E; [|discriminate].
    intros Hall Hk.
    destruct (register_other_keys _ _ _ k E (Hk reg (or_introl eq_refl)))
      as (H1 & H2 & _).
    destruct (IH r1 Hall (fun reg' Hin => Hk reg' (or_intror Hin))) as [H3 H4].
    rewrite H3, H4. auto.
Qed.

(** A built router has entries under registered hosts only. *)
Lemma built_keys (regs : list (Reg (Route := Route) (Redirect := Redirect))) k :
  (forall reg, In reg regs -> regHost reg <> k) ->
  route (built regs : Rtr) !! k = None
  /\ redirect (built regs : Rtr) !! k = None.
Proof.
  intros Hk. unfold built.
  destruct (registerAll New regs) as [r|] eqn:E.
  - destruct (registerAll_other_keys _ _ _ k E Hk) as [-> ->].
    simpl. rewrite !lookup_empty. auto.
  - simpl. rewrite !lookup_empty. auto.
Qed.

End WithTargets.
End ReachFacts.

(* ===================================================================== *)
(** * router/router.go: locality, registration, misses                    *)
(* ===================================================================== *)

Module DispatchMore.
Import GoStrings Utils Http Httprouter ExactRouter Router Samples.
Import GoStringsFacts UtilsFacts SplitFacts DomainFacts RouterFacts
       RouterRegistration ReachFacts.

(** X11.  A request reaches two host keys at most: its own host and, when
    the host has a dot, the wildcard host made from it.  Two routers with
    the same not-found handler whose tables agree under those keys serve
    the request in the same way, whatever else they hold. *)
Theorem dispatch_reads_two_keys
    {PR : Type -> Type} `{!PathRouter PR} {Route Redirect : Type}
    (r r' : Router.Router PR Route Redirect)
    (rw : ResponseWriter Route Redirect) (req : Request)
    (Hnf : notFound r' = notFound r)
    (Hrt : route r' !! Host req = route r !! Host req)
    (Hrd : redirect r' !! Host req = redirect r !! Host req)
    (Hw : IndexByte (Host req) "." <> -1 ->
          let w := wildcardHost (Host req) (IndexByte (Host req) ".") in
          route r' !! w = route r !! w /\ redirect r' !! w = redirect r !! w) :
  ServeHTTP r' rw req = ServeHTTP r rw req.
Proof.
  destruct (matches_same_entry r r' req _ Hrt Hrd) as [H1 H2].
  apply ServeHTTP_same_matches; try assumption.
  intros Hdot w. destruct (Hw Hdot) as [H3 H4].
  apply matches_same_entry; assumption.
Qed.

Lemma dispatch_reads_two_keys_witness :
  ServeHTTP routerMixed nil (get "shop.example.com" "/")
  = ServeHTTP
      (built (RegRoute "shop.example.com" "/" "A"
              :: RegRedirect "*.example.com" "/" "B"
              :: RegRoute "*.example.com" "/" "C" :: nil) : SRouter)
      nil (get "shop.example.com" "/").
Proof.
  apply (dispatch_reads_two_keys _ routerMixed).
  - reflexivity.
  - vm_compute. reflexivity.
  - vm_compute. reflexivity.
  - intros _. vm_compute. split; reflexivity.
Defined.

(** X12.  Adding a route or a redirect under one host does not change how
    a request is served whose host and wildcard host are both different
    from it. *)
Theorem registration_leaves_other_hosts
    {PR : Type -> Type} `{!PathRouter PR} {Route Redirect : Type}
    (r r' : Router.Router PR Route Redirect)
    (rw : ResponseWriter Route Redirect) (req : Request)
    (reg : Reg)
    (Hreg : register r reg = Some r')
    (Hhost : regHost reg <> Host req)
    (Hwild : regHost reg
             <> wildcardHost (Host req) (IndexByte (Host req) ".")) :
  ServeHTTP r' rw req = ServeHTTP r rw req.
Proof.
  destruct (register_other_keys _ _ _ _ Hreg Hhost) as (H1 & H2 & Hnf).
  destruct (register_other_keys _ _ _ _ Hreg Hwild) as (H3 & H4 & _).
  apply ServeHTTP_same_matches; try assumption.
  - apply matches_same_entry; assumption.
  - apply matches_same_entry; assumption.
  - intros _ w. apply matches_same_entry; assumption.
Qed.

Lemma registration_leaves_other_hosts_witness :
  exists r' : SRouter,
    register routerC (RegRoute "other.org" "/" "D") = Some r'
    /\ ServeHTTP r' nil (get "shop.example.com" "/")
       = ServeHTTP routerC nil (get "shop.example.com" "/").
Proof.
  destruct (register routerC (RegRoute "other.org" "/" "D")) as [r'|] eqn:E;
    [|vm_compute in E; discriminate E].
  exists r'. split; [reflexivity|].
  apply (registration_leaves_other_hosts routerC r' nil _ _ E);
    vm_compute; discriminate.
Defined.

(** X13.  The leading slash of a registered path is optional: a path without
    it registers exactly what the path with it registers, for routes and
    for redirects; and the route then serves a GET for the slashed path on
    that host, unless the host's redirect table answers first. *)
Theorem leading_slash_is_optional
    {PR : Type -> Type} `{!PathRouter PR} {Route Redirect : Type}
    (r : Router.Router PR Route Redirect)
    (rw : ResponseWriter Route Redirect) (req : Request)
    (host path : string) (tA : Route) (tB : Redirect)
    (Hbare : HasPrefixByte path "/" = false) :
  AddRoute r host path tA = AddRoute r host ("/" +:+ path) tA
  /\ AddRedirect r host path tB = AddRedirect r host ("/" +:+ path) tB
  /\ (forall r',
        AddRoute r host path tA = Some r' ->
        Host req = host -> Method req = MethodGet ->
        Path req = "/" +:+ path ->
        matchRedirect r' req host = None ->
        exists ps, ServeHTTP r' rw req = rw ++ EvRoute tA ps :: nil).
Proof.
  assert (Hn : normPath path = "/" +:+ path)
    by (unfold normPath; rewrite Hbare; reflexivity).
  assert (Hn' : normPath ("/" +:+ path) = "/" +:+ path) by reflexivity.
  split; [unfold AddRoute; rewrite Hn, Hn'; reflexivity|].
  split; [unfold AddRedirect; rewrite Hn, Hn'; reflexivity|].
  intros r' HA Hh Hm Hp Hred. subst host.
  destruct (AddRoute_registers _ _ _ _ _ req HA Hm ltac:(congruence))
    as [ps Hps].
  exists ps. apply ServeHTTP_exact_route; assumption.
Qed.

Lemma leading_slash_is_optional_witness :
  HasPrefixByte "status" "/" = false
  /\ AddRoute (Router.New : SRouter) "example.com" "status" "S"
     = AddRoute (Router.New : SRouter) "example.com" "/status" "S".
Proof.
  split; [reflexivity|].
  exact (proj1 (leading_slash_is_optional (Router.New : SRouter) nil
                  (get "example.com" "/status") "example.com" "status"
                  "S" "R" eq_refl)).
Defined.

(** X14.  Serving a request on a router built through the API adds at most
    one call to the writer and keeps what was recorded before; the call is
    never a [WriteHeader]. *)
Theorem at_most_one_call
    {PR : Type -> Type} `{!PathRouter PR} {Route Redirect : Type}
    (r : Router.Router PR Route Redirect)
    (rw : ResponseWriter Route Redirect) (req : Request)
    (HB : Built r) :
  exists evs,
    ServeHTTP r rw req = rw ++ evs
    /\ (List.length evs <= 1)%nat
    /\ forall code, ~ In (EvWriteHeader code) evs.
Proof.
  rewrite ServeHTTP_unfold, (Built_notFound r HB).
  unfold wildcardTier, notFoundHandler.
  assert (Hone : forall ev : Event Route Redirect,
             (forall code, ev <> EvWriteHeader code) ->
             exists evs, rw ++ ev :: nil = rw ++ evs
                         /\ (List.length evs <= 1)%nat
                         /\ forall code, ~ In (EvWriteHeader code) evs).
  { intros ev Hev. exists (ev :: nil). repeat split; [simpl; lia|].
    intros code [Hin|[]]. exact (Hev code Hin). }
  assert (Hnil : exists evs, rw = rw ++ evs
                             /\ (List.length evs <= 1)%nat
                             /\ forall code, ~ In (EvWriteHeader code) evs).
  { exists nil. rewrite app_nil_r. repeat split; [simpl; lia|].
    intros code []. }
  destruct (matchRedirect r req (Host req)) as [[? ?]|];
    [apply Hone; discriminate|].
  destruct (matchRoute r req (Host req)) as [[? ?]|];
    [apply Hone; discriminate|].
  destruct (IndexByte (Host req) "." =? -1); [apply Hone; discriminate|].
  destruct (matchRedirect r req _) as [[? ?]|]; [apply Hone; discriminate|].
  destruct (matchRoute r req _) as [[? ?]|]; [apply Hone; discriminate|].
  exact Hnil.
Qed.

Lemma at_most_one_call_witness :
  exists evs,
    ServeHTTP routerMixed (EvWrite "earlier" :: nil) (get "x.example.com" "/")
    = (EvWrite "earlier" :: nil) ++ evs
    /\ (List.length evs <= 1)%nat
    /\ forall code, ~ In (EvWriteHeader code) evs.
Proof.
  exact (at_most_one_call routerMixed (EvWrite "earlier" :: nil)
           (get "x.example.com" "/") (built_Built _)).
Defined.

(** X15.  A route added under the wildcard host [*.sfx] serves a GET for
    its path on any host [l.sfx] with a dot-free first label [l], provided
    neither table answers under the host itself and the redirect table does
    not answer under the wildcard host. *)
Theorem wildcard_route_serves_subdomains
    {PR : Type -> Type} `{!PathRouter PR} {Route Redirect : Type}
    (r r' : Router.Router PR Route Redirect)
    (rw : ResponseWriter Route Redirect) (req : Request)
    (l sfx path : string) (t : Route)
    (Hadd : AddRoute r ("*." +:+ sfx) path t = Some r')
    (Hhost : Host req = l +:+ String "." sfx)
    (Hl : IndexByte l "." = -1)
    (Hm : Method req = MethodGet)
    (Hp : Path req = normPath path)
    (H1 : matchRedirect r' req (Host req) = None)
    (H2 : matchRoute r' req (Host req) = None)
    (H3 : matchRedirect r' req ("*." +:+ sfx) = None) :
  exists ps, ServeHTTP r' rw req = rw ++ EvRoute t ps :: nil.
Proof.
  destruct (AddRoute_registers _ _ _ _ _ req Hadd Hm Hp) as [ps Hps].
  exists ps. rewrite (ServeHTTP_wildcard _ _ _ H1 H2).
  - rewrite Hhost, (wildcardHost_first_label _ _ Hl).
    unfold wildcardTier. rewrite H3, Hps. reflexivity.
  - rewrite Hhost. apply IndexByte_cut_found, Hl.
Qed.

Lemma wildcard_route_serves_subdomains_witness :
  exists (r' : SRouter) ps,
    AddRoute Router.New "*.example.com" "docs" "C" = Some r'
    /\ ServeHTTP r' nil (get "shop.example.com" "/docs")
       = EvRoute "C" ps :: nil.
Proof.
  destruct (AddRoute (Router.New : SRouter) "*.example.com" "docs" "C")
    as [r'|] eqn:E; [|vm_compute in E; discriminate E].
  assert (E' : r' = built (RegRoute "*.example.com" "docs" "C" :: nil)).
  { unfold built. simpl. rewrite E. reflexivity. }
  destruct (wildcard_route_serves_subdomains Router.New r' nil
              (get "shop.example.com" "/docs") "shop" "example.com" "docs" "C"
              E eq_refl eq_refl eq_refl eq_refl) as [ps Hps];
    try (rewrite E'; vm_compute; reflexivity).
  exists r', ps. split; [reflexivity|exact Hps].
Defined.

(** X16.  A wildcard registration does not cover the domain it is a
    wildcard of: when the tables have entries under [*.H] only, every
    request for the host [H] itself is a miss. *)
Theorem wildcard_does_not_cover_apex
    {PR : Type -> Type} `{!PathRouter PR} {Route Redirect : Type}
    (r : Router.Router PR Route Redirect)
    (rw : ResponseWriter Route Redirect) (req : Request)
    (Honly : forall k, k <> "*." +:+ Host req ->
               route r !! k = None /\ redirect r !! k = None) :
  ServeHTTP r rw req
  = if IndexByte (Host req) "." =? -1 then notFound r rw req else rw.
Proof.
  assert (Hlen : forall k, len k < len ("*." +:+ Host req) ->
                   k <> "*." +:+ Host req).
  { intros k Hk ->. lia. }
  assert (Hstar : len ("*." +:+ Host req) = len (Host req) + 2).
  { change ("*." +:+ Host req) with (String "*" (String "." (Host req))).
    rewrite !len_cons. lia. }
  apply ServeHTTP_no_entries.
  - apply Honly, Hlen. lia.
  - apply Honly, Hlen. lia.
  - intros _ w. apply Honly, Hlen. subst w. unfold wildcardHost.
    change ("*" +:+ ?s) with (String "*" s).
    rewrite len_cons. unfold sliceFrom.
    pose proof (len_drop (Z.to_nat (IndexByte (Host req) ".")) (Host req)).
    lia.
Qed.

Lemma wildcard_does_not_cover_apex_witness :
  ServeHTTP routerC nil (get "example.com" "/") = nil.
Proof.
  apply (wildcard_does_not_cover_apex routerC nil (get "example.com" "/")).
  intros k Hk. apply built_keys. intros reg [<-|[]]. simpl.
  intros <-. apply Hk. reflexivity.
Defined.

(** X17.  The port is part of the host key.  When no table has an entry
    under a key with a colon, a request whose Host header is [h:port] is a
    miss, whatever is registered under [h] or under its wildcard host
    (for a host [h] with a dot, or a port without one). *)
Theorem port_is_part_of_the_host
    {PR : Type -> Type} `{!PathRouter PR} {Route Redirect : Type}
    (r : Router.Router PR Route Redirect)
    (rw : ResponseWriter Route Redirect) (req : Request)
    (h port : string)
    (Hhost : Host req = h +:+ String ":" port)
    (Hdot : IndexByte h "." <> -1 \/ IndexByte port "." = -1)
    (Hkeys : forall k, IndexByte k ":" <> -1 ->
               route r !! k = None /\ redirect r !! k = None) :
  ServeHTTP r rw req
  = if IndexByte (Host req) "." =? -1 then notFound r rw req else rw.
Proof.
  assert (Hc : IndexByte (Host req) ":" <> -1)
    by (rewrite Hhost; apply IndexByte_app_found).
  apply ServeHTTP_no_entries; try (apply Hkeys, Hc).
  intros Hd w. apply Hkeys. subst w. unfold wildcardHost.
  apply IndexByte_star.
  destruct (IndexByte_range h ".") as [Hn|Hr].
  - destruct Hdot as [Hdot|Hport]; [contradiction|].
    exfalso. apply Hd. rewrite Hhost. apply IndexByte_app_none; [exact Hn|].
    simpl. rewrite Hport. reflexivity.
  - rewrite Hhost, IndexByte_app_l by lia.
    unfold sliceFrom. rewrite drop_app by lia.
    destruct (first_cut (drop (Z.to_nat (IndexByte h ".")) h) ":")
      as [Hnone|(d & rest & -> & _)].
    + apply IndexByte_cut_found, Hnone.
    + rewrite app_assoc, app_cons. apply IndexByte_app_found.
Qed.

Lemma port_is_part_of_the_host_witness :
  ServeHTTP routerAB nil (get "example.com:8080" "/") = nil
  /\ ServeHTTP routerAB nil (get "example.com" "/") = EvRedirect "B" nil :: nil.
Proof.
  split; [|vm_compute; reflexivity].
  apply (port_is_part_of_the_host routerAB nil (get "example.com:8080" "/")
           "example.com" "8080" eq_refl).
  - left. vm_compute. discriminate.
  - intros k Hk. apply built_keys.
    intros reg [<-|[<-|[]]]; simpl; intros <-; apply Hk; reflexivity.
Defined.

End DispatchMore.

(* ===================================================================== *)
(** * favicons/favicons.go: what a rebuild publishes                      *)
(* ===================================================================== *)

Module FaviconsMore.
Import Favicons.

Section WithImages.
Context {FaviconImage : Type}.
Variable CreateFaviconImage : string -> option FaviconImage.
Variable PreProcess :
  FaviconList FaviconImage -> FaviconList FaviconImage * option error.

Local Abbreviation FL := (FaviconList FaviconImage).
Local Abbreviation scanRows' := (scanRows CreateFaviconImage PreProcess).
Local Abbreviation waitGroup' := (waitGroup PreProcess).
Local Abbreviation rowList ico png svg :=
  ({| Ico := CreateFaviconImage ico;
      Png := CreateFaviconImage png;
      Svg := CreateFaviconImage svg |}).

Implicit Types (m : gmap string FL) (spawned : list (string * FL))
  (rows : list ScanResult) (host : string).

Lemma waitGroup_lookup_notin spawned m host :
  noneSpawnedFor host spawned ->
  fst (waitGroup' spawned m) !! host = m !! host.
Proof.
  revert m. induction spawned as [|[h0 l0] rest IH]; intros m Hno;
    [reflexivity|].
  simpl. destruct (PreProcess l0) as [l0' e0].
  specialize (IH (<[h0:=l0']> m)).
  destruct (waitGroup' rest (<[h0:=l0']> m)) as [m' e']. simpl in *.
  rewrite IH.
  - apply lookup_insert_ne. intros ->. apply (Hno l0). left. reflexivity.
  - intros l Hin. apply (Hno l). right. exact Hin.
Qed.

Lemma waitGroup_lookup_last pre post m host l :
  noneSpawnedFor host post ->
  fst (waitGroup' (pre ++ (host, l) :: post) m) !! host
  = Some (fst (PreProcess l)).
Proof.
  intros Hpost. revert m. induction pre as [|[h0 l0] pre IH]; intros m; simpl.
  - destruct (PreProcess l) as [l' e].
    pose proof (waitGroup_lookup_notin post (<[host:=l']> m) host Hpost) as H.
    destruct (waitGroup' post (<[host:=l']> m)) as [m' e']. simpl in *.
    rewrite H. apply lookup_insert_eq.
  - destruct (PreProcess l0) as [l0' e0].
    specialize (IH (<[h0:=l0']> m)).
    destruct (waitGroup' (pre ++ (host, l) :: post) (<[h0:=l0']> m))
      as [m' e']. exact IH.
Qed.

Lemma waitGroup_keeps spawned m host :
  is_Some (m !! host) -> is_Some (fst (waitGroup' spawned m) !! host).
Proof.
  revert m. induction spawned as [|[h0 l0] rest IH]; intros m Hm; [exact Hm|].
  simpl. destruct (PreProcess l0) as [l0' e0].
  specialize (IH (<[h0:=l0']> m)).
  destruct (waitGroup' rest (<[h0:=l0']> m)) as [m' e']. simpl in *.
  apply IH. rewrite lookup_insert. case_decide; [eauto|exact Hm].
Qed.

Lemma scanRows_lookup_notin rows m spawned host :
  noRowFor host rows -> noneSpawnedFor host spawned ->
  fst (scanRows' rows m spawned) !! host = m !! host.
Proof.
  revert m spawned. induction rows as [|row rows IH]; intros m spawned Hr Hs.
  - simpl. apply waitGroup_lookup_notin, Hs.
  - destruct row as [h svg png ico|err]; simpl; [|reflexivity].
    assert (Hne : h <> host).
    { intros ->. apply (Hr svg png ico). left. reflexivity. }
    rewrite IH.
    + apply lookup_insert_ne, Hne.
    + intros s p i Hin. apply (Hr s p i). right. exact Hin.
    + intros l [Hin|[[= E _]|[]]]%in_app_or; [exact (Hs l Hin)|congruence].
Qed.

Lemma scanRows_keeps rows m spawned host :
  is_Some (m !! host) -> is_Some (fst (scanRows' rows m spawned) !! host).
Proof.
  revert m spawned. induction rows as [|row rows IH]; intros m spawned Hm.
  - simpl. apply waitGroup_keeps, Hm.
  - destruct row as [h svg png ico|err]; simpl; [|exact Hm].
    apply IH. rewrite lookup_insert. case_decide; [eauto|exact Hm].
Qed.

(** On success the entry of a host is the pre-processed list of the last
    goroutine started for it. *)
Lemma scanRows_spawned_last rows m pre post host l m' :
  noRowFor host rows -> noneSpawnedFor host post ->
  scanRows' rows m (pre ++ (host, l) :: post) = (m', None) ->
  m' !! host = Some (fst (PreProcess l)).
Proof.
  revert m post. induction rows as [|row rows IH]; intros m post Hr Hpost.
  - simpl. intros E.
    pose proof (waitGroup_lookup_last pre post m host l Hpost) as H.
    rewrite E in H. exact H.
  - destruct row as [h svg png ico|err]; simpl; [|discriminate].
    rewrite <- List.app_assoc. simpl. apply IH.
    + intros s p i Hin. apply (Hr s p i). right. exact Hin.
    + intros l0 [Hin|[[= E _]|[]]]%in_app_or; [exact (Hpost l0 Hin)|].
      apply (Hr svg png ico). left. rewrite E. reflexivity.
Qed.

Lemma scanRows_rows_last rpre rpost m spawned host svg png ico m' :
  noRowFor host rpost ->
  scanRows' (rpre ++ ScanOk host svg png ico :: rpost) m spawned = (m', None) ->
  m' !! host = Some (fst (PreProcess (rowList ico png svg))).
Proof.
  intros Hpost. revert m spawned.
  induction rpre as [|row rpre IH]; intros m spawned; simpl.
  - apply (scanRows_spawned_last rpost _ spawned nil host); [exact Hpost|].
    intros l [].
  - destruct row as [h s p i|err]; [apply IH|discriminate].
Qed.

Lemma last_row_for host rows :
  (exists svg png ico, In (ScanOk host svg png ico) rows) ->
  exists rpre svg png ico rpost,
    rows = rpre ++ ScanOk host svg png ico :: rpost /\ noRowFor host rpost.
Proof.
  induction rows as [|row rows IH] using rev_ind.
  - intros (s & p & i & []).
  - intros (s & p & i & Hin).
    assert (Hcase : (exists s' p' i', row = ScanOk host s' p' i')
                    \/ noRowFor host (row :: nil)).
    { destruct row as [h s' p' i'|err].
      - destruct (decide (h = host)) as [->|Hne]; [left; eauto|].
        right. intros s0 p0 i0 [[= E _ _ _]|[]]. congruence.
      - right. intros s0 p0 i0 [E|[]]. discriminate E. }
    destruct Hcase as [(s' & p' & i' & ->)|Hno].
    + exists rows, s', p', i', nil. split; [reflexivity|]. intros ? ? ? [].
    + apply in_app_or in Hin as [Hin|Hin]; [|exfalso; exact (Hno _ _ _ Hin)].
      destruct (IH (ex_intro _ s (ex_intro _ p (ex_intro _ i Hin))))
        as (rpre & s' & p' & i' & rpost & -> & Hpost).
      exists rpre, s', p', i', (rpost ++ row :: nil). split.
      * rewrite <- List.app_assoc. reflexivity.
      * intros s0 p0 i0 [H|H]%in_app_or;
          [exact (Hpost _ _ _ H)|exact (Hno _ _ _ H)].
Qed.

(** Rows read before the first one that cannot be scanned are in the map
    that was passed in. *)
Lemma scanRows_until_error rpre err rpost m spawned host :
  (forall e, ~ In (ScanErr e) rpre) ->
  scanRows' (rpre ++ ScanErr err :: rpost) m spawned
  = (fst (scanRows' (rpre ++ ScanErr err :: rpost) m spawned),
     Some (Errorf "failed to scan row" err))
  /\ (is_Some (m !! host)
      \/ (exists svg png ico, In (ScanOk host svg png ico) rpre) ->
      is_Some (fst (scanRows' (rpre ++ ScanErr err :: rpost) m spawned)
               !! host)).
Proof.
  intros Hok. revert m spawned.
  induction rpre as [|row rpre IH]; intros m spawned; simpl.
  - split; [reflexivity|]. intros [Hm|(s & p & i & [])]. exact Hm.
  - destruct row as [h s p i|e];
      [|exfalso; apply (Hok e); left; reflexivity].
    destruct (IH (fun e Hin => Hok e (or_intror Hin))
                 (<[h:=rowList i p s]> m)
                 (spawned ++ (h, rowList i p s) :: nil)) as [E Hsome].
    split; [exact E|]. intros Hhost. apply Hsome.
    destruct Hhost as [Hm|(s0 & p0 & i0 & [[= -> _ _ _]|Hin])].
    + left. rewrite lookup_insert. case_decide; [eauto|exact Hm].
    + left. rewrite lookup_insert_eq. eauto.
    + right. eauto.
Qed.

Lemma row_for_dec host rows :
  noRowFor host rows \/ exists svg png ico, In (ScanOk host svg png ico) rows.
Proof.
  induction rows as [|row rows IH]; [left; intros s p i []|].
  destruct IH as [IH|(s & p & i & Hin)];
    [|right; exists s, p, i; right; exact Hin].
  destruct row as [h s p i|err].
  - destruct (decide (h = host)) as [->|Hne].
    + right. exists s, p, i. left. reflexivity.
    + left. intros s' p' i' [[= E _ _ _]|Hin]; [congruence|].
      exact (IH s' p' i' Hin).
  - left. intros s' p' i' [Hin|Hin]; [discriminate|exact (IH s' p' i' Hin)].
Qed.

End WithImages.

(** X18.  After a rebuild that succeeded, [GetIcons] knows exactly the
    hosts of the rows that storage returned: a host with a row has icons,
    and a host without one has none, whatever the previous snapshot held. *)
Theorem rebuild_publishes_storage_hosts
    {FaviconImage : Type}
    (CreateFaviconImage : string -> option FaviconImage)
    (PreProcess :
       FaviconList FaviconImage -> FaviconList FaviconImage * option error)
    (f : Favicons FaviconImage) (rows : list ScanResult)
    (m : gmap string (FaviconList FaviconImage))
    (Hdb : db f = inr rows)
    (Hok : internalCompile CreateFaviconImage PreProcess f ∅ = (m, None))
    (host : string) :
  is_Some (GetIcons (fst (threadCompile CreateFaviconImage PreProcess f)) host)
  <-> exists svg png ico, In (ScanOk host svg png ico) rows.
Proof.
  unfold threadCompile, GetIcons. rewrite Hok. simpl.
  unfold internalCompile in Hok. rewrite Hdb in Hok. split.
  - intros Hsome.
    destruct (row_for_dec host rows) as [Hno|Hyes]; [|exact Hyes].
    pose proof (scanRows_lookup_notin CreateFaviconImage PreProcess
                  rows ∅ nil host Hno (fun l H => H)) as E.
    rewrite Hok in E. simpl in E. rewrite E, lookup_empty in Hsome.
    destruct Hsome as [? [=]].
  - intros Hyes.
    destruct (last_row_for host rows Hyes)
      as (rpre & s & p & i & rpost & -> & Hpost).
    rewrite (scanRows_rows_last CreateFaviconImage PreProcess
               _ _ _ _ _ _ _ _ _ Hpost Hok). eauto.
Qed.

Lemma rebuild_publishes_storage_hosts_witness :
  let f := {| db := inr Samples.goodRows;
              faviconMap := {[ "old.net" := Samples.iconsBefore ]} |} in
  let f' := fst (threadCompile Samples.sampleCreate Samples.samplePreProcess f) in
  is_Some (GetIcons f "old.net")
  /\ is_Some (GetIcons f' "example.com")
  /\ ~ is_Some (GetIcons f' "old.net").
Proof.
  intros f f'.
  assert (Hok : internalCompile Samples.sampleCreate Samples.samplePreProcess
                  f ∅
                = (faviconMap f', None)) by (vm_compute; reflexivity).
  pose proof (rebuild_publishes_storage_hosts Samples.sampleCreate
                Samples.samplePreProcess f Samples.goodRows _ eq_refl Hok)
    as H.
  split; [vm_compute; eauto|]. split.
  - apply H. do 3 eexists. left. reflexivity.
  - intros Hsome. apply H in Hsome as (s & p & i & [[=]|[]]).
Defined.

(** X19.  After a rebuild that succeeded, the icons of a host are those of
    the last row for that host, after pre-processing. *)
Theorem last_row_wins
    {FaviconImage : Type}
    (CreateFaviconImage : string -> option FaviconImage)
    (PreProcess :
       FaviconList FaviconImage -> FaviconList FaviconImage * option error)
    (f : Favicons FaviconImage)
    (rpre rpost : list ScanResult) (host svg png ico : string)
    (m : gmap string (FaviconList FaviconImage))
    (Hdb : db f = inr (rpre ++ ScanOk host svg png ico :: rpost))
    (Hlast : noRowFor host rpost)
    (Hok : internalCompile CreateFaviconImage PreProcess f ∅ = (m, None)) :
  GetIcons (fst (threadCompile CreateFaviconImage PreProcess f)) host
  = Some (fst (PreProcess {| Ico := CreateFaviconImage ico;
                             Png := CreateFaviconImage png;
                             Svg := CreateFaviconImage svg |})).
Proof.
  unfold threadCompile, GetIcons. rewrite Hok. simpl.
  unfold internalCompile in Hok. rewrite Hdb in Hok.
  exact (scanRows_rows_last CreateFaviconImage PreProcess
           _ _ _ _ _ _ _ _ _ Hlast Hok).
Qed.

Lemma last_row_wins_witness :
  let f := {| db := inr (ScanOk "example.com" "first.svg" "" ""
                         :: ScanOk "example.com" "second.svg" "" "" :: nil);
              faviconMap := ∅ |} in
  GetIcons (fst (threadCompile Samples.sampleCreate Samples.samplePreProcess f))
    "example.com"
  = Some {| Ico := None; Png := None; Svg := Some "second.svg" |}.
Proof.
  intros f.
  refine (last_row_wins Samples.sampleCreate Samples.samplePreProcess f
            (ScanOk "example.com" "first.svg" "" "" :: nil) nil
            "example.com" "second.svg" "" "" _ eq_refl _ _).
  - intros s p i [].
  - vm_compute. reflexivity.
Defined.

(** X20.  The first row that cannot be scanned decides the error of the
    build: the message is "failed to scan row: " followed by that row's
    error, whatever the rows after it hold and whether or not the
    pre-processing of earlier rows would fail; and this is the line that
    [threadCompile] logs. *)
Theorem first_scan_error_decides
    {FaviconImage : Type}
    (CreateFaviconImage : string -> option FaviconImage)
    (PreProcess :
       FaviconList FaviconImage -> FaviconList FaviconImage * option error)
    (f : Favicons FaviconImage)
    (rpre rpost : list ScanResult) (err : error)
    (Hdb : db f = inr (rpre ++ ScanErr err :: rpost))
    (Hfirst : forall e, ~ In (ScanErr e) rpre) :
  (forall m,
      snd (internalCompile CreateFaviconImage PreProcess f m)
      = Some ("failed to scan row: " +:+ err))
  /\ snd (threadCompile CreateFaviconImage PreProcess f)
     = ("[Favicons] Compile failed: failed to scan row: " +:+ err +:+ Fmt.LF)
       :: nil.
Proof.
  assert (E : forall m,
             snd (internalCompile CreateFaviconImage PreProcess f m)
             = Some ("failed to scan row: " +:+ err)).
  { intros m. unfold internalCompile. rewrite Hdb.
    destruct (scanRows_until_error CreateFaviconImage PreProcess
                rpre err rpost m nil "" Hfirst) as [-> _]. reflexivity. }
  split; [exact E|].
  unfold threadCompile. specialize (E ∅).
  destruct (internalCompile CreateFaviconImage PreProcess f ∅) as [m' e'].
  simpl in E. subst e'. reflexivity.
Qed.

Lemma first_scan_error_decides_witness :
  snd (threadCompile Samples.sampleCreate Samples.samplePreProcess
         Samples.providerBroken)
  = ("[Favicons] Compile failed: failed to scan row: sql: Scan error"
     +:+ Fmt.LF) :: nil.
Proof.
  refine (proj2 (first_scan_error_decides Samples.sampleCreate
                   Samples.samplePreProcess Samples.providerBroken
                   (ScanOk "other.org" "https://other.org/logo.svg" "" "" :: nil)
                   nil "sql: Scan error" eq_refl _)).
  intros e [H|[]]. discriminate H.
Defined.

(** X21.  [internalCompile] writes into the map it is handed: it never
    removes a host from it, and when a row cannot be scanned the hosts of
    the rows before it are already in the map although the build failed. *)
Theorem internalCompile_fills_in_place
    {FaviconImage : Type}
    (CreateFaviconImage : string -> option FaviconImage)
    (PreProcess :
       FaviconList FaviconImage -> FaviconList FaviconImage * option error)
    (f : Favicons FaviconImage)
    (m : gmap string (FaviconList FaviconImage)) (host : string) :
  (is_Some (m !! host) ->
   is_Some (fst (internalCompile CreateFaviconImage PreProcess f m) !! host))
  /\ (forall rpre err rpost svg png ico,
        db f = inr (rpre ++ ScanErr err :: rpost) ->
        (forall e, ~ In (ScanErr e) rpre) ->
        In (ScanOk host svg png ico) rpre ->
        failed (internalCompile CreateFaviconImage PreProcess f m)
        /\ is_Some (fst (internalCompile CreateFaviconImage PreProcess f m)
                    !! host)).
Proof.
  split.
  - intros Hm. unfold internalCompile. destruct (db f) as [e|rows];
      [exact Hm|]. apply scanRows_keeps, Hm.
  - intros rpre err rpost svg png ico Hdb Hfirst Hin.
    unfold internalCompile. rewrite Hdb.
    destruct (scanRows_until_error CreateFaviconImage PreProcess
                rpre err rpost m nil host Hfirst) as [E Hsome].
    split; [rewrite E; eexists; reflexivity|].
    apply Hsome. right. eauto.
Qed.

Lemma internalCompile_fills_in_place_witness :
  failed (internalCompile Samples.sampleCreate Samples.samplePreProcess
            Samples.providerBroken ∅)
  /\ is_Some (fst (internalCompile Samples.sampleCreate
                     Samples.samplePreProcess Samples.providerBroken ∅)
              !! "other.org").
Proof.
  refine (proj2 (internalCompile_fills_in_place Samples.sampleCreate
                   Samples.samplePreProcess Samples.providerBroken ∅
                   "other.org")
            (ScanOk "other.org" "https://other.org/logo.svg" "" "" :: nil)
            "sql: Scan error" nil _ _ _ eq_refl _ _).
  - intros e [H|[]]. discriminate H.
  - left. reflexivity.
Defined.

End FaviconsMore.
